(** * Alert evaluation and log-field extraction of the logging dashboard

    A shallow embedding of the two pieces of logic of
    [dashboard/dashboard_light_professional.py] that decide which alerts the
    dashboard shows:

    - [check_alerts] and [generate_alerts_table], the threshold checks over
      the pandas frame that [ElasticsearchClient.query_data] returns;
    - the body of the loop of [generate_loki_logs_section], which pulls
      temperature, humidity and motion readings out of free-text log lines
      with three regular expressions.

    Python objects are modelled as follows.  A [str] is the list of its code
    points ([list N]); a number stored in a frame is a rational ([Q]), with
    [CNaN] for pandas' missing value; a dict of a document is a
    [gmap string cell]; an exception is the [Raise] case of [result]. *)

From Stdlib Require Import QArith ZArith NArith String Ascii List Lia.
From stdpp Require Import base gmap strings list.

Open Scope string_scope.

(** ** Exceptions *)

Inductive exn : Type :=
| KeyError (key : string)
| TypeError
| ValueError.

Inductive result (A : Type) : Type :=
| Ok (a : A)
| Raise (e : exn).

Arguments Ok {A} a.
Arguments Raise {A} e.

#[global] Instance result_ret : MRet result := @Ok.

#[global] Instance result_bind : MBind result :=
  fun A B (k : A → result B) (r : result A) =>
    match r with
    | Ok a => k a
    | Raise e => Raise e
    end.

Fixpoint mapM {A B : Type} (f : A → result B) (l : list A) : result (list B) :=
  match l with
  | [] => Ok []
  | a :: l' => b ← f a; bs ← mapM f l'; Ok (b :: bs)
  end.

Fixpoint foldM {A S : Type} (f : S → A → result S) (st : S) (l : list A) : result S :=
  match l with
  | [] => Ok st
  | a :: l' => st' ← f st a; foldM f st' l'
  end.

(** ** Strings as code points *)

Module Unicode.

(** [text] decodes the UTF-8 bytes of a literal of this file into the code
    points of the Python [str] it stands for. *)
Definition cont (a : ascii) : N := N.land (N_of_ascii a) 63.

Fixpoint text (s : string) : list N :=
  match s with
  | EmptyString => []
  | String a s1 =>
    let b := N_of_ascii a in
    if (b <? 128)%N then b :: text s1
    else match s1 with
         | EmptyString => [b]
         | String a1 s2 =>
           if (b <? 224)%N
           then (N.shiftl (N.land b 31) 6 + cont a1)%N :: text s2
           else match s2 with
                | EmptyString => [b]
                | String a2 s3 =>
                  if (b <? 240)%N
                  then (N.shiftl (N.land b 15) 12 + N.shiftl (cont a1) 6
                        + cont a2)%N :: text s3
                  else match s3 with
                       | EmptyString => [b]
                       | String a3 s4 =>
                         (N.shiftl (N.land b 7) 18 + N.shiftl (cont a1) 12
                          + N.shiftl (cont a2) 6 + cont a3)%N :: text s4
                       end
                end
         end
  end.

(** The characters [\s] matches in a [str] pattern. *)
Definition whitespace : list N :=
  [9; 10; 11; 12; 13; 28; 29; 30; 31; 32; 133; 160; 5760;
   8192; 8193; 8194; 8195; 8196; 8197; 8198; 8199; 8200; 8201; 8202;
   8232; 8233; 8239; 8287; 12288]%N.

Definition is_space (c : N) : bool := existsb (N.eqb c) whitespace.

(** The characters [\d] matches in a [str] pattern are the decimal digits
    of every script (category Nd, Unicode 14.0): runs of ten code points,
    zero first, given here by the first code point and the length. *)
Definition decimal_runs : list (N * N) :=
  map (fun a => (a, 10%N))
    [48; 1632; 1776; 1984; 2406; 2534; 2662; 2790; 2918; 3046; 3174; 3302;
     3430; 3558; 3664; 3792; 3872; 4160; 4240; 6112; 6160; 6470; 6608;
     6784; 6800; 6992; 7088; 7232; 7248; 42528; 43216; 43264; 43472;
     43504; 43600; 44016; 65296; 66720; 68912; 69734; 69872;
     69942; 70096; 70384; 70736; 70864; 71248; 71360; 71472; 71904;
     72016; 72784; 73040; 73120; 92768; 92864; 93008]%N
  ++ [(120782, 50)]%N
  ++ map (fun a => (a, 10%N)) [123200; 123632; 125264; 130032]%N.

Definition in_run (c : N) (r : N * N) : bool :=
  ((fst r <=? c) && (c <? fst r + snd r))%N.

Definition decimal (c : N) : option N :=
  match find (in_run c) decimal_runs with
  | Some r => Some ((c - fst r) mod 10)%N
  | None => None
  end.

Definition is_digit (c : N) : bool :=
  match decimal c with Some _ => true | None => false end.

(** [str.lower], character by character.  Only A-Z and the two characters
    below lower-case to ASCII; every other cased character maps to
    characters outside ASCII and is kept as it is, which changes no test
    for an ASCII phrase in the result. *)
Definition lower_char (c : N) : list N :=
  if ((65 <=? c) && (c <=? 90))%N then [(c + 32)%N]
  else if (c =? 304)%N then [105; 775]%N
  else if (c =? 8490)%N then [107]%N
  else [c].

Definition lower (s : list N) : list N := flat_map lower_char s.

(** [needle in s] for two [str]. *)
Fixpoint starts_with (needle s : list N) : bool :=
  match needle, s with
  | [], _ => true
  | _ :: _, [] => false
  | a :: needle', c :: s' => (a =? c)%N && starts_with needle' s'
  end.

Fixpoint contains (needle s : list N) : bool :=
  starts_with needle s ||
  match s with
  | [] => false
  | _ :: s' => contains needle s'
  end.

End Unicode.

(** ** Regular expressions

    The three patterns of the dashboard are sequences of single-character
    sets, each taken once or under a greedy [?], [*] or [+], with one
    capturing group.  [rematch] is the backtracking matcher of [re] for such
    sequences: it returns the text of the group. *)

Module Re.

Inductive quant : Type := One | Opt | Star | Plus.

Record item : Type := Item {
  cls : N → bool;
  rep : quant;
  cap : bool
}.

Definition keep (b : bool) (c : N) (g : list N) : list N :=
  if b then c :: g else g.

Section Greedy.
Variables (p : N → bool) (b : bool) (k : list N → option (list N)).

(** As many characters of [p] as the rest of the pattern [k] allows,
    longest first. *)
Fixpoint star (s : list N) : option (list N) :=
  match s with
  | c :: s' =>
    if p c then
      match star s' with
      | Some g => Some (keep b c g)
      | None => k s
      end
    else k s
  | [] => k s
  end.
End Greedy.

Fixpoint rematch (pat : list item) (s : list N) : option (list N) :=
  match pat with
  | [] => Some []
  | it :: pat' =>
    match rep it with
    | One =>
      match s with
      | c :: s' => if cls it c then keep (cap it) c <$> rematch pat' s' else None
      | [] => None
      end
    | Opt =>
      match s with
      | c :: s' =>
        if cls it c then
          match rematch pat' s' with
          | Some g => Some (keep (cap it) c g)
          | None => rematch pat' s
          end
        else rematch pat' s
      | [] => rematch pat' s
      end
    | Star => star (cls it) (cap it) (rematch pat') s
    | Plus =>
      match s with
      | c :: s' =>
        if cls it c
        then keep (cap it) c <$> star (cls it) (cap it) (rematch pat') s'
        else None
      | [] => None
      end
    end
  end.

(** [re.search(pat, s)]: the match at the leftmost position that has one;
    the result is [group(1)] of the match object, [None] for no match. *)
Fixpoint search (pat : list item) (s : list N) : option (list N) :=
  match rematch pat s with
  | Some g => Some g
  | None =>
    match s with
    | [] => None
    | _ :: s' => search pat s'
    end
  end.

Definition one_of (cs : list N) : item :=
  Item (fun c => existsb (N.eqb c) cs) One false.

Definition lit (s : list N) : list item :=
  map (fun a => Item (N.eqb a) One false) s.

(** [[:\s=]] *)
Definition is_sep (c : N) : bool :=
  (c =? 58)%N || Unicode.is_space c || (c =? 61)%N.

Definition is_dot (c : N) : bool := (c =? 46)%N.

(** [[:\s=]+] followed by the group [\d+ \.? \d*] *)
Definition sep_number : list item :=
  [ Item is_sep Plus false;
    Item Unicode.is_digit Plus true;
    Item is_dot Opt true;
    Item Unicode.is_digit Star true ].

(** [[:\s=]+] followed by the group [\d+] *)
Definition sep_integer : list item :=
  [ Item is_sep Plus false;
    Item Unicode.is_digit Plus true ].

End Re.

Import Unicode.

(** [[Tt]emperature], separators, a decimal number. *)
Definition temperature_re : list Re.item :=
  Re.one_of (text "Tt") :: Re.lit (text "emperature") ++ Re.sep_number.

(** [[Hh]umidity], separators, a decimal number. *)
Definition humidity_re : list Re.item :=
  Re.one_of (text "Hh") :: Re.lit (text "umidity") ++ Re.sep_number.

(** [[Mm]otion], separators, an integer. *)
Definition motion_re : list Re.item :=
  Re.one_of (text "Mm") :: Re.lit (text "otion") ++ Re.sep_integer.

(** ** Conversions

    [float(s)] and [int(s)] on the texts the patterns can capture: a run of
    decimal digits, for [float] with an optional point and further digits.
    Any other text is reported as [ValueError] (Python's [float] accepts
    more, signs and exponents for instance; no pattern captures those). *)

Fixpoint take_while {A : Type} (p : A → bool) (l : list A) : list A :=
  match l with
  | a :: l' => if p a then a :: take_while p l' else []
  | [] => []
  end.

Fixpoint drop_while {A : Type} (p : A → bool) (l : list A) : list A :=
  match l with
  | a :: l' => if p a then drop_while p l' else l
  | [] => []
  end.

Definition digits_value (s : list N) : N :=
  fold_left (fun acc c => (10 * acc + default 0 (decimal c))%N) s 0%N.

Fixpoint pow10 (n : nat) : positive :=
  match n with
  | O => 1
  | S n' => 10 * pow10 n'
  end%positive.

(** The integer nearest to [a / b], the even one of the two when [a / b]
    lies half way. *)
Definition round_half_even (a b : N) : N :=
  let q := (a / b)%N in
  match (2 * (a mod b) ?= b)%N with
  | Lt => q
  | Gt => (q + 1)%N
  | Eq => if N.even q then q else (q + 1)%N
  end.

(** A Python [float] is the rational it equals; [inf] is written as 2^1024,
    which is above every double and compares with the thresholds as [inf]
    does. *)
Definition inf : Q := Z.of_N (2 ^ 1024) # 1.

(** The double nearest to [n / d], ties to even: 53 significant bits down
    to the exponent -1022, multiples of 2^-1074 below, [inf] from 2^1024
    on. *)
Definition to_double (n : N) (d : positive) : Q :=
  if (n =? 0)%N then Z.of_N 0 # 1
  else
    let e0 := (Z.of_N (N.log2 n) - Z.of_N (N.log2 (Npos d)))%Z in
    let above := if (0 <=? e0)%Z
                 then (Npos d * 2 ^ Z.to_N e0 <=? n)%N
                 else (Npos d <=? n * 2 ^ Z.to_N (- e0))%N in
    let e := if above then e0 else (e0 - 1)%Z in
    let k := (Z.max e (-1022) - 52)%Z in
    if (0 <=? k)%Z then
      let v := (round_half_even n (Npos d * 2 ^ Z.to_N k) * 2 ^ Z.to_N k)%N in
      if (2 ^ 1024 <=? v)%N then inf else Z.of_N v # 1
    else
      Z.of_N (round_half_even (n * 2 ^ Z.to_N (- k)) (Npos d))
      # Pos.shiftl 1 (Z.to_N (- k)).

(** [float(s)]: the double nearest to the decimal, in lowest terms. *)
Definition py_float (s : list N) : result Q :=
  match take_while is_digit s, drop_while is_digit s with
  | [], _ => Raise ValueError
  | ip, [] => Ok (Qred (to_double (digits_value ip) 1))
  | ip, c :: fp =>
    if Re.is_dot c && forallb is_digit fp
    then Ok (Qred (to_double (digits_value (ip ++ fp)) (pow10 (length fp))))
    else Raise ValueError
  end.

(** [sys.int_info.default_max_str_digits] *)
Definition int_max_str_digits : N := 4300.

(** [int(s)]: a text of more digits than the limit is refused. *)
Definition py_int (s : list N) : result Z :=
  match s with
  | [] => Raise ValueError
  | _ :: _ =>
    if forallb is_digit s then
      if (int_max_str_digits <? N.of_nat (length s))%N then Raise ValueError
      else Ok (Z.of_N (digits_value s))
    else Raise ValueError
  end.

(** [f'{v:.1f}'] for a finite [v], read as a number of tenths ("45.0" is
    450): the tenth nearest to [v], the even one when two are equally
    near. *)
Definition tenths (v : Q) : Z :=
  let a := (10 * Qnum v)%Z in
  let b := Zpos (Qden v) in
  match (2 * (a mod b) ?= b)%Z with
  | Lt => (a / b)%Z
  | Gt => (a / b + 1)%Z
  | Eq => if Z.even (a / b) then (a / b)%Z else (a / b + 1)%Z
  end.

(** ** Frames

    A cell of a frame: a number, pandas' missing value (NaN, and NaT in a
    column of instants), [None], a string, or an instant (nanoseconds since
    the epoch, UTC). *)

Inductive cell : Type :=
| CNum (q : Q)
| CNaN
| CNone
| CStr (s : string)
| CTime (t : Z).

(** [c >= n] for an [int] of the rule table. *)
Definition ge (c : cell) (n : Z) : result bool :=
  match c with
  | CNum q => Ok (Qle_bool (inject_Z n) q)
  | CNaN => Ok false
  | CNone | CStr _ | CTime _ => Raise TypeError
  end.

(** [c >= t] for an instant [t]. *)
Definition time_ge (t : Z) (c : cell) : result bool :=
  match c with
  | CTime u => Ok (t <=? u)%Z
  | CNaN => Ok false
  | CNone | CStr _ | CNum _ => Raise TypeError
  end.

(** [c == s] for a [str]. *)
Definition eq_str (s : string) (c : cell) : bool :=
  match c with
  | CStr s' => String.eqb s' s
  | _ => false
  end.

(** Truth value, and [a or b]. *)
Definition truthy (c : cell) : bool :=
  match c with
  | CNum q => negb (Qeq_bool q 0)
  | CNaN => true
  | CNone => false
  | CStr s => negb (String.eqb s "")
  | CTime _ => true
  end.

Definition py_or (a b : cell) : cell := if truthy a then a else b.

(** A frame is its set of columns and, for each row, the document it was
    built from: a key the document lacks is a missing value in that row.
    Selecting rows keeps the columns. *)
Record DataFrame : Type := {
  columns : gset string;
  records : list (gmap string cell)
}.

(** One row of a frame, as [iloc] and [iterrows] give it. *)
Record Series : Type := {
  index : gset string;
  data : gmap string cell
}.

Definition value_at (r : gmap string cell) (k : string) : cell :=
  default CNaN (r !! k).

(** A column in which no document holds a string or an instant, and in
    which some document holds a number or holds nothing, is stored as
    floats. *)
Definition float_column (docs : list (gmap string cell)) (k : string) : bool :=
  forallb (fun d => match d !! k with
                    | Some (CStr _) | Some (CTime _) => false
                    | _ => true
                    end) docs
  && existsb (fun d => match d !! k with
                       | Some (CNum _) | Some CNaN | None => true
                       | _ => false
                       end) docs.

(** A [None] of a float column is stored as the missing value; in any
    other column it stays [None]. *)
Definition stored (docs : list (gmap string cell)) (k : string) (c : cell) : cell :=
  match c with
  | CNone => if float_column docs k then CNaN else CNone
  | _ => c
  end.

(** [pd.DataFrame(docs)] and [pd.DataFrame()]. *)
Definition DataFrame_of (docs : list (gmap string cell)) : DataFrame :=
  {| columns := ⋃ (dom <$> docs);
     records := (fun d : gmap string cell =>
                   (map_imap (fun k c => Some (stored docs k c)) d : gmap string cell))
                <$> docs |}.

(** [df.empty] *)
Definition empty (df : DataFrame) : bool :=
  bool_decide (columns df = ∅) ||
  match records df with [] => true | _ :: _ => false end.

(** [row[k]] *)
Definition getitem (row : Series) (k : string) : result cell :=
  if bool_decide (k ∈ index row) then Ok (value_at (data row) k)
  else Raise (KeyError k).

(** [row.get(k, dflt)] *)
Definition get (row : Series) (k : string) (dflt : cell) : cell :=
  if bool_decide (k ∈ index row) then value_at (data row) k else dflt.

Fixpoint filterM {A : Type} (test : A → result bool) (l : list A) : result (list A) :=
  match l with
  | [] => Ok []
  | a :: l' =>
    b ← test a; rest ← filterM test l';
    Ok (if (b : bool) then a :: rest else rest)
  end.

(** [df[test(df[k])]]: the rows whose cell in column [k] passes [test]. *)
Definition rows_where (df : DataFrame) (k : string) (test : cell → result bool)
  : result DataFrame :=
  if bool_decide (k ∈ columns df) then
    rs ← filterM (fun r => test (value_at r k)) (records df);
    Ok {| columns := columns df; records := rs |}
  else Raise (KeyError k).

(** [df.iloc[0]] *)
Definition iloc0 (df : DataFrame) : result Series :=
  match records df with
  | r :: _ => Ok {| index := columns df; data := r |}
  | [] => Raise (KeyError "0")
  end.

Definition seconds (n : Z) : Z := (n * 1000000000)%Z.
Definition minutes (n : Z) : Z := seconds (60 * n).

(** ** The rule table *)

Definition ALERT_RULES : gmap string (gmap string Z) :=
  list_to_map
    [ ("temperature", list_to_map [("high", 35); ("critical", 45); ("low", 18)]);
      ("humidity", list_to_map [("high", 70); ("critical", 85); ("low", 30)]);
      ("cpu", list_to_map [("warning", 60); ("critical", 90)]);
      ("memory", list_to_map [("warning", 60); ("critical", 85)]);
      ("disk", list_to_map [("warning", 80); ("critical", 95)]);
      ("packet_loss", list_to_map [("warning", 2); ("critical", 5)]) ]%Z.

(** [ALERT_RULES[name][key]] *)
Definition rule (name key : string) : result Z :=
  match ALERT_RULES !! name with
  | Some r =>
    match r !! key with
    | Some z => Ok z
    | None => Raise (KeyError key)
    end
  | None => Raise (KeyError name)
  end.

Definition danger : string := "#e74c3c".
Definition warning : string := "#f39c12".

(** ** The alert banner: [check_alerts] *)

Inductive band : Type := CRITICAL | WARNING.

Inductive metric : Type := Temperature | Humidity | CPU | Memory | Disk.

(** One entry of [alerts].  The message
    [f'{severity}: {label} at {value:.1f}{unit}'] is kept as the metric it
    names and the value it formats, the one that was compared with the
    thresholds; the text shows that value rounded to one decimal
    ([tenths]). *)
Record Alert : Type := {
  icon : string;
  message : metric * cell;
  severity : band;
  color : string
}.

Definition rule_name (m : metric) : string :=
  match m with
  | Temperature => "temperature"
  | Humidity => "humidity"
  | CPU => "cpu"
  | Memory => "memory"
  | Disk => "disk"
  end.

Definition warning_key (m : metric) : string :=
  match m with
  | Temperature | Humidity => "high"
  | CPU | Memory | Disk => "warning"
  end.

Definition critical_icon (m : metric) : string :=
  match m with
  | Temperature => "🔥"
  | Humidity => "💧"
  | CPU | Memory | Disk => "🔴"
  end.

(** The [if ... >= critical ... elif ... >= warning] block, which the
    function repeats for each of its five metrics. *)
Definition threshold_alerts (m : metric) (v : cell) : result (list Alert) :=
  critical ← rule (rule_name m) "critical";
  hit ← ge v critical;
  if (hit : bool) then
    Ok [ {| icon := critical_icon m; message := (m, v);
            severity := CRITICAL; color := danger |} ]
  else
    threshold ← rule (rule_name m) (warning_key m);
    hit ← ge v threshold;
    if (hit : bool) then
      Ok [ {| icon := "⚠️"; message := (m, v);
              severity := WARNING; color := warning |} ]
    else Ok [].

(** The temperature and the humidity block: the first row of the sensor's
    rows, read from the column named after the sensor if the frame has it,
    else from ['value']. *)
Definition sensor_alerts (recent_df : DataFrame) (sensor : string) (m : metric)
  : result (list Alert) :=
  sensor_data ← rows_where recent_df "sensor_type" (fun c => Ok (eq_str sensor c));
  if empty sensor_data then Ok []
  else
    latest ← (if bool_decide (sensor ∈ columns sensor_data)
              then row ← iloc0 sensor_data; getitem row sensor
              else if bool_decide ("value" ∈ columns sensor_data)
              then row ← iloc0 sensor_data; getitem row "value"
              else Ok CNone);
    match latest with
    | CNone => Ok []
    | _ => threshold_alerts m latest
    end.

(** The system health block. *)
Definition system_alerts (recent_df : DataFrame) : result (list Alert) :=
  sys_data ← rows_where recent_df "sensor_type" (fun c => Ok (eq_str "system_health" c));
  if empty sys_data then Ok []
  else
    latest_sys ← iloc0 sys_data;
    cpu ← threshold_alerts CPU (get latest_sys "cpu_percent" (CNum 0));
    memory ← threshold_alerts Memory (get latest_sys "memory_percent" (CNum 0));
    disk ← threshold_alerts Disk (get latest_sys "disk_percent" (CNum 0));
    Ok (cpu ++ memory ++ disk)%list.

(** [recent_df]: the rows of the last 30 seconds before [current_time], the
    reading of the clock the function takes. *)
Definition recent (current_time : Z) (df : DataFrame) : result DataFrame :=
  rows_where df "@timestamp" (time_ge (current_time - seconds 30)).

Definition check_alerts (current_time : Z) (df : DataFrame) : result (list Alert) :=
  recent_df ← recent current_time df;
  if empty recent_df then Ok []
  else
    temperature ← sensor_alerts recent_df "temperature" Temperature;
    humidity ← sensor_alerts recent_df "humidity" Humidity;
    system ← system_alerts recent_df;
    Ok (temperature ++ humidity ++ system)%list.

(** ** The alerts table: [generate_alerts_table] *)

(** A line of a Loki query result. *)
Record LogRow : Type := {
  message_of : list N;
  timestamp : Z;
  host : string
}.

(** One entry of [alert_records]; ['Time'] is kept as the instant that
    [strftime] renders and ['Message'] as the value it formats, the one
    that was compared with the thresholds; the text shows that value
    rounded to one decimal ([tenths]). *)
Record AlertRecord : Type := {
  Time : Z;
  Type_ : string;
  Severity : band;
  Message : cell
}.

Definition strftime (c : cell) : result Z :=
  match c with
  | CTime t => Ok t
  | _ => Raise ValueError
  end.

(** The threshold block of the table, the same for a row of the frame and
    for a line of the log. *)
Definition table_alerts (time : result Z) (Type_ name : string) (v : cell)
  : result (list AlertRecord) :=
  critical ← rule name "critical";
  hit ← ge v critical;
  if (hit : bool) then
    t ← time;
    Ok [ {| Time := t; Type_ := Type_; Severity := CRITICAL; Message := v |} ]
  else
    high ← rule name "high";
    hit ← ge v high;
    if (hit : bool) then
      t ← time;
      Ok [ {| Time := t; Type_ := Type_; Severity := WARNING; Message := v |} ]
    else Ok [].

(** [row.get(field) or row.get('value', 0)] *)
Definition field_or_value (row : Series) (field : string) : cell :=
  py_or (get row field CNone) (get row "value" (CNum 0)).

Definition sensor_row_alerts (row : Series) (Type_ name : string)
  : result (list AlertRecord) :=
  if eq_str name (get row "sensor_type" CNone) then
    table_alerts (t ← getitem row "@timestamp"; strftime t)
                 Type_ name (field_or_value row name)
  else Ok [].

Definition row_alerts (row : Series) : result (list AlertRecord) :=
  temperature ← sensor_row_alerts row "Temperature" "temperature";
  humidity ← sensor_row_alerts row "Humidity" "humidity";
  Ok (temperature ++ humidity)%list.

Definition frame_alert_records (now : Z) (df : DataFrame) : result (list AlertRecord) :=
  if negb (empty df) && bool_decide ("@timestamp" ∈ columns df) then
    alerts_df ← rows_where df "@timestamp" (time_ge (now - minutes 10));
    per_row ← mapM (fun r => row_alerts {| index := columns alerts_df; data := r |})
                   (records alerts_df);
    Ok (concat per_row)
  else Ok [].

(** The fallback over the log lines.  It runs inside [try]: an exception
    ends the loop and leaves the records appended so far. *)
Definition log_match (re : list Re.item) (Type_ name : string) (row : LogRow)
  : result (list AlertRecord) :=
  match Re.search re (message_of row) with
  | Some g =>
    v ← py_float g;
    table_alerts (Ok (timestamp row)) Type_ name (CNum v)
  | None => Ok []
  end.

Fixpoint log_alert_records (alert_records : list AlertRecord) (logs : list LogRow)
  : list AlertRecord :=
  match logs with
  | [] => alert_records
  | row :: logs' =>
    match log_match temperature_re "Temperature" "temperature" row with
    | Raise _ => alert_records
    | Ok temperature =>
      match log_match humidity_re "Humidity" "humidity" row with
      | Raise _ => (alert_records ++ temperature)%list
      | Ok humidity =>
        log_alert_records (alert_records ++ temperature ++ humidity)%list logs'
      end
    end
  end.

(** [loki] is [None] when there is no Loki client, else the lines that
    [query_logs] returned for the last ten minutes.  The result is
    [alert_records] as the table shows it, cut to ten entries; the empty
    list stands for the "No alerts triggered" note. *)
Definition generate_alerts_table (now : Z) (df : DataFrame) (loki : option (list LogRow))
  : result (list AlertRecord) :=
  alert_records ← frame_alert_records now df;
  Ok (take 10 match alert_records, loki with
              | [], Some logs => log_alert_records [] logs
              | _, _ => alert_records
              end).

(** ** Readings from log lines: the loop of [generate_loki_logs_section] *)

Inductive pyval : Type :=
| PyFloat (q : Q)
| PyInt (z : Z).

(** The dict with keys ['timestamp'], ['value'] and ['host']. *)
Record Reading : Type := {
  reading_timestamp : Z;
  value : pyval;
  reading_host : string
}.

Record Parsed : Type := {
  temp_data : list Reading;
  humidity_data : list Reading;
  motion_data : list Reading
}.

Definition reading (row : LogRow) (v : pyval) : Reading :=
  {| reading_timestamp := timestamp row; value := v; reading_host := host row |}.

Definition float_readings (re : list Re.item) (row : LogRow) : result (list Reading) :=
  match Re.search re (message_of row) with
  | Some g => v ← py_float g; Ok [reading row (PyFloat v)]
  | None => Ok []
  end.

Definition motion_readings (row : LogRow) : result (list Reading) :=
  match Re.search motion_re (message_of row) with
  | Some g => v ← py_int g; Ok [reading row (PyInt v)]
  | None =>
    if contains (text "motion detected") (lower (message_of row))
    then Ok [reading row (PyInt 1)]
    else Ok []
  end.

(** The body of the loop: what one line appends to the three lists. *)
Definition parse_row (st : Parsed) (row : LogRow) : result Parsed :=
  temperature ← float_readings temperature_re row;
  humidity ← float_readings humidity_re row;
  motion ← motion_readings row;
  Ok {| temp_data := (temp_data st ++ temperature)%list;
        humidity_data := (humidity_data st ++ humidity)%list;
        motion_data := (motion_data st ++ motion)%list |}.

Definition parse_logs (logs : list LogRow) : result Parsed :=
  foldM parse_row {| temp_data := []; humidity_data := []; motion_data := [] |} logs.

(** The readings of a single message. *)
Definition extract (msg : list N) : result Parsed :=
  parse_logs [ {| message_of := msg; timestamp := 0; host := "unknown" |} ].

(** ** Fetching the window: [query_data] and the banner of [update_dashboard] *)

(** [pd.to_datetime] on a cell of the ["@timestamp"] column, whose strings
    are given as the instants they denote: a [None] becomes the missing
    instant. *)
Definition to_datetime (c : cell) : cell :=
  match c with
  | CNone => CNaN
  | _ => c
  end.

(** [search] is the outcome of the Elasticsearch query: the documents of the
    last hour, newest first, with the instant each ["@timestamp"] denotes,
    or the exception the client raised. *)
Definition query_data (search : result (list (gmap string cell))) : DataFrame :=
  match search with
  | Ok hits =>
    let df := DataFrame_of hits in
    if bool_decide ("@timestamp" ∈ columns df) then
      {| columns := columns df;
         records := (fun r => <["@timestamp" := to_datetime (value_at r "@timestamp")]> r)
                    <$> records df |}
    else df
  | Raise _ => DataFrame_of []
  end.

Inductive Banner : Type :=
| NoResults
| ErrorComponents (e : exn)
| AllSystemsOperational
| Alerts (shown : list Alert).

(** What [update_dashboard] puts in the banner when no search filter is
    set and the Elasticsearch client exists. *)
Definition alert_banner (now : Z) (search : result (list (gmap string cell))) : Banner :=
  let df := query_data search in
  if empty df then NoResults
  else match check_alerts now df with
       | Raise e => ErrorComponents e
       | Ok [] => AllSystemsOperational
       | Ok alerts => Alerts (take 5 alerts)
       end.

(** ** Notions used in the statements *)

(** What the group of [Re.sep_number] holds when the number starts at [s]:
    the digits, then a point and the digits after it if a point follows. *)
Definition number_text (s : list N) : option (list N) :=
  match take_while is_digit s with
  | [] => None
  | ip =>
    Some (ip ++ match drop_while is_digit s with
                | c :: s' => if Re.is_dot c then c :: take_while is_digit s' else []
                | [] => []
                end)%list
  end.

(** What the group of [Re.sep_integer] holds: the digits. *)
Definition integer_text (s : list N) : option (list N) :=
  match take_while is_digit s with
  | [] => None
  | ip => Some ip
  end.

(** The separators, then what [number] finds after them. *)
Definition after_seps (number : list N → option (list N)) (s : list N)
  : option (list N) :=
  match take_while Re.is_sep s with
  | [] => None
  | _ :: _ => number (drop_while Re.is_sep s)
  end.

(** The metric an alert is about. *)
Definition about (a : Alert) : metric := fst (message a).

(** The order in which the banner lists its metrics. *)
Definition metric_rank (m : metric) : nat :=
  match m with
  | Temperature => 0
  | Humidity => 1
  | CPU => 2
  | Memory => 3
  | Disk => 4
  end.

(** The value of a reading is a [float], respectively an [int]. *)
Definition float_valued (r : Reading) : Prop :=
  match value r with PyFloat _ => True | PyInt _ => False end.

Definition int_valued (r : Reading) : Prop :=
  match value r with PyInt _ => True | PyFloat _ => False end.

(** The two spellings of each name that the patterns are written for. *)
Definition spellings : list (list Re.item * list N) :=
  [ (temperature_re, text "Temperature"); (temperature_re, text "temperature");
    (humidity_re, text "Humidity"); (humidity_re, text "humidity");
    (motion_re, text "Motion"); (motion_re, text "motion") ].

(** The warning (or high) and the critical threshold of each metric of the
    banner, as the rule table gives them. *)
Definition thresholds (m : metric) : Z * Z :=
  match m with
  | Temperature => (35, 45)
  | Humidity => (70, 85)
  | CPU => (60, 90)
  | Memory => (60, 85)
  | Disk => (80, 95)
  end%Z.

(** The two dicts a threshold block can append. *)
Definition critical_alert (m : metric) (v : cell) : Alert :=
  {| icon := critical_icon m; message := (m, v); severity := CRITICAL; color := danger |}.

Definition warning_alert (m : metric) (v : cell) : Alert :=
  {| icon := "⚠️"; message := (m, v); severity := WARNING; color := warning |}.

(** An alert is justified when its value is a number at or above the
    warning threshold of its metric and it is critical exactly when the
    number is at or above the critical one. *)
Definition justified (a : Alert) : Prop :=
  ∃ v, message a = (about a, CNum v)
       ∧ (inject_Z (fst (thresholds (about a))) <= v)%Q
       ∧ (severity a = CRITICAL ↔ (inject_Z (snd (thresholds (about a))) <= v)%Q).

(** What a threshold block can return: nothing, or a single justified
    alert about its metric. *)
Definition at_most_one (m : metric) (l : list Alert) : Prop :=
  l = [] ∨ ∃ a, l = [a] ∧ about a = m ∧ justified a.

(** Each number is below the next one. *)
Fixpoint strictly_increasing (l : list nat) : bool :=
  match l with
  | a :: l' =>
    match l' with
    | b :: _ => (a <? b)%nat && strictly_increasing l'
    | [] => true
    end
  | [] => true
  end.

(** The document the temperature simulator sends: the reading is under
    ['value']. *)
Definition temperature_record (t : Z) (v : Q) : gmap string cell :=
  list_to_map [ ("@timestamp", CTime t); ("sensor_type", CStr "temperature");
                ("value", CNum v) ].

(** A number or a missing value. *)
Definition numeric (c : cell) : Prop :=
  match c with
  | CNum _ | CNaN => True
  | CNone | CStr _ | CTime _ => False
  end.

(** The fields the banner compares. *)
Definition metric_fields : list string :=
  ["temperature"; "humidity"; "value"; "cpu_percent"; "disk_percent"].

(** The metric fields of a document hold numbers where they are present. *)
Definition readable (d : gmap string cell) : Prop :=
  Forall (fun k => numeric (value_at d k)) metric_fields.

(** The number the motion pattern finds in a message, if any, has no more
    digits than [int] accepts. *)
Definition motion_within_limit (msg : list N) : bool :=
  match Re.search motion_re msg with
  | Some g => (N.of_nat (length g) <=? int_max_str_digits)%N
  | None => true
  end.

(** A message with [n] times the digit 1 after ["Motion: "]. *)
Definition long_motion (n : nat) : list N := (text "Motion: " ++ repeat 49%N n)%list.

(** [row['sensor_type'] == 'system_health'] *)
Definition is_system_health (d : gmap string cell) : bool :=
  eq_str "system_health" (value_at d "sensor_type").

(** * Properties *)

Example search_temperature :
  Re.search temperature_re (text "Temperature: 37.5°C") = Some (text "37.5").
Proof. vm_compute. reflexivity. Qed.

(** ** The matcher *)

Section Matcher.
Import Re.

Lemma fmap_keep_false (c : N) (o : option (list N)) : keep false c <$> o = o.
Proof. destruct o; reflexivity. Qed.

Lemma take_drop_while {A} (p : A → bool) (l : list A) :
  (take_while p l ++ drop_while p l)%list = l.
Proof.
  induction l as [|a l IH]; simpl; [reflexivity|].
  destruct (p a); simpl; [now rewrite IH | reflexivity].
Qed.

Lemma take_while_all {A} (p : A → bool) (l : list A) :
  forallb p (take_while p l) = true.
Proof.
  induction l as [|a l IH]; simpl; [reflexivity|].
  destruct (p a) eqn:E; simpl; [now rewrite E | reflexivity].
Qed.

Lemma take_while_stop {A} (p : A → bool) (l r : list A) :
  forallb p l = true →
  match r with a :: _ => p a = false | [] => True end →
  take_while p (l ++ r)%list = l ∧ drop_while p (l ++ r)%list = r.
Proof.
  intros Hl Hr. induction l as [|a l IH]; simpl in *.
  - destruct r as [|a r]; simpl; [auto|]. now rewrite Hr.
  - apply andb_prop in Hl as [Ha Hl]. rewrite Ha.
    destruct (IH Hl) as [-> ->]. auto.
Qed.

Lemma drop_while_head {A} (p : A → bool) (l : list A) :
  match drop_while p l with a :: _ => p a = false | [] => True end.
Proof.
  induction l as [|a l IH]; simpl; [exact I|].
  destruct (p a) eqn:E; [exact IH | exact E].
Qed.

(** A greedy repetition never has to give characters back when the rest
    of the pattern either accepts what follows the longest run or cannot
    start with a character of the run. *)
Lemma star_greedy (p : N → bool) (b : bool) (k : list N → option (list N)) s :
  (∀ c s', p c = true → k (drop_while p s') = None → k (c :: s') = None) →
  star p b k s
  = (fun g => if b then (take_while p s ++ g)%list else g) <$> k (drop_while p s).
Proof.
  intros Hk. induction s as [|c s IH]; simpl.
  - destruct (k []), b; reflexivity.
  - destruct (p c) eqn:Hc; simpl.
    + rewrite IH. destruct (k (drop_while p s)) eqn:Hs; simpl.
      * destruct b; reflexivity.
      * now apply Hk.
    + destruct (k (c :: s)), b; reflexivity.
Qed.

Lemma space_not_digit c : is_space c = true → is_digit c = false.
Proof.
  unfold is_space. rewrite existsb_exists. intros (x & Hx & Hc).
  apply N.eqb_eq in Hc. subst x.
  unfold whitespace in Hx. simpl in Hx.
  repeat (destruct Hx as [<-|Hx]; [vm_compute; reflexivity|]).
  destruct Hx.
Qed.

Lemma sep_not_digit c : is_sep c = true → is_digit c = false.
Proof.
  unfold is_sep. intros H.
  apply orb_prop in H as [H|H]; [apply orb_prop in H as [H|H]|].
  - apply N.eqb_eq in H. subst. vm_compute. reflexivity.
  - now apply space_not_digit.
  - apply N.eqb_eq in H. subst. vm_compute. reflexivity.
Qed.

Lemma digit_not_sep c : is_digit c = true → is_sep c = false.
Proof.
  intros H. destruct (is_sep c) eqn:E; [|reflexivity].
  apply sep_not_digit in E. congruence.
Qed.

Lemma dot_not_digit c : is_dot c = true → is_digit c = false.
Proof. unfold is_dot. intros H. apply N.eqb_eq in H. subst. vm_compute. reflexivity. Qed.

Lemma take_while_drop_while {A} (p : A → bool) (l : list A) :
  take_while p (drop_while p l) = [].
Proof.
  pose proof (drop_while_head p l) as H.
  destruct (drop_while p l) as [|a r]; simpl; [reflexivity|]. now rewrite H.
Qed.

(** The group [\d+ \.? \d*]. *)
Lemma rematch_number s :
  rematch [ Item is_digit Plus true; Item is_dot Opt true; Item is_digit Star true ] s
  = number_text s.
Proof.
  assert (Hfrac : ∀ t, rematch [Item is_digit Star true] t = Some (take_while is_digit t)).
  { intros t. simpl. rewrite star_greedy by discriminate.
    simpl. now rewrite app_nil_r. }
  assert (Htail : ∀ t,
    rematch [Item is_dot Opt true; Item is_digit Star true] t
    = Some match t with
           | c :: t' => if is_dot c then c :: take_while is_digit t'
                        else take_while is_digit t
           | [] => []
           end).
  { intros [|c t'].
    - reflexivity.
    - change (rematch [Item is_dot Opt true; Item is_digit Star true] (c :: t'))
        with (if is_dot c then
                match rematch [Item is_digit Star true] t' with
                | Some g => Some (c :: g)
                | None => rematch [Item is_digit Star true] (c :: t')
                end
              else rematch [Item is_digit Star true] (c :: t')).
      rewrite !Hfrac. destruct (is_dot c); reflexivity. }
  unfold number_text. destruct s as [|c s]; [reflexivity|].
  change (rematch [Item is_digit Plus true; Item is_dot Opt true; Item is_digit Star true] (c :: s))
    with (if is_digit c
          then keep true c <$> star is_digit true
                 (rematch [Item is_dot Opt true; Item is_digit Star true]) s
          else None).
  simpl take_while. simpl drop_while.
  destruct (is_digit c) eqn:Hc; [|reflexivity].
  rewrite star_greedy.
  2:{ intros c' s' _ H. rewrite Htail in H. discriminate. }
  rewrite Htail. simpl.
  pose proof (drop_while_head is_digit s) as Hd.
  destruct (drop_while is_digit s) as [|d r]; [reflexivity|].
  destruct (is_dot d); [reflexivity|].
  simpl. now rewrite Hd.
Qed.

Lemma rematch_integer s :
  rematch [ Item is_digit Plus true ] s = integer_text s.
Proof.
  unfold integer_text. destruct s as [|c s]; [reflexivity|]. simpl.
  destruct (is_digit c); [|reflexivity].
  rewrite star_greedy by discriminate. simpl. now rewrite app_nil_r.
Qed.

(** [[:\s=]+] in front of a group that starts with a digit. *)
Lemma rematch_seps (grp : list item) (number : list N → option (list N)) s :
  (∀ t, rematch grp t = number t) →
  (∀ c t, is_sep c = true → number (c :: t) = None) →
  rematch (Item is_sep Plus false :: grp) s = after_seps number s.
Proof.
  intros Hgrp Hsep. unfold after_seps. destruct s as [|c s]; [reflexivity|].
  simpl. destruct (is_sep c) eqn:Hc; [|reflexivity].
  rewrite fmap_keep_false, star_greedy.
  2:{ intros c' s' Hc' _. rewrite Hgrp. now apply Hsep. }
  rewrite Hgrp. now destruct (number (drop_while is_sep s)).
Qed.

Lemma number_text_sep c t : is_sep c = true → number_text (c :: t) = None.
Proof. intros H. unfold number_text. simpl. now rewrite (sep_not_digit c H). Qed.

Lemma integer_text_sep c t : is_sep c = true → integer_text (c :: t) = None.
Proof. intros H. unfold integer_text. simpl. now rewrite (sep_not_digit c H). Qed.

Lemma rematch_sep_number s : rematch sep_number s = after_seps number_text s.
Proof. apply rematch_seps; [apply rematch_number | apply number_text_sep]. Qed.

Lemma rematch_sep_integer s : rematch sep_integer s = after_seps integer_text s.
Proof. apply rematch_seps; [apply rematch_integer | apply integer_text_sep]. Qed.

(** The name in front: its first letter in either case, the rest as
    written. *)
Lemma rematch_lit (name : list N) (pat : list item) s :
  rematch (lit name ++ pat) s
  = if starts_with name s then rematch pat (drop (length name) s) else None.
Proof.
  revert s. induction name as [|a name IH]; intros s; [reflexivity|].
  destruct s as [|c s]; [reflexivity|].
  simpl. rewrite fmap_keep_false, IH.
  destruct (a =? c)%N eqn:E; simpl; [reflexivity|reflexivity].
Qed.

Lemma rematch_name (first name : list N) (pat : list item) s :
  rematch (one_of first :: lit name ++ pat) s
  = match s with
    | c :: s' =>
      if existsb (N.eqb c) first && starts_with name s'
      then rematch pat (drop (length name) s')
      else None
    | [] => None
    end.
Proof.
  destruct s as [|c s]; [reflexivity|].
  change (rematch (one_of first :: lit name ++ pat) (c :: s))
    with (if existsb (N.eqb c) first
          then keep false c <$> rematch (lit name ++ pat) s else None).
  rewrite fmap_keep_false, rematch_lit.
  destruct (existsb (N.eqb c) first); reflexivity.
Qed.

Lemma search_Some pat s g :
  search pat s = Some g → ∃ pre t, s = (pre ++ t)%list ∧ rematch pat t = Some g.
Proof.
  induction s as [|c s IH]; simpl.
  - destruct (rematch pat []) eqn:E; [|discriminate].
    intros [= <-]. now exists [], [].
  - destruct (rematch pat (c :: s)) eqn:E.
    + intros [= <-]. now exists [], (c :: s).
    + intros H. destruct (IH H) as (pre & t & -> & Ht).
      now exists (c :: pre), t.
Qed.

Lemma search_app pat pre s :
  is_Some (rematch pat s) → is_Some (search pat (pre ++ s)%list).
Proof.
  intros [g Hg]. induction pre as [|c pre IH]; simpl.
  - destruct s; simpl; rewrite Hg; eauto.
  - destruct (rematch pat (c :: (pre ++ s)%list)); eauto.
Qed.

End Matcher.

(** ** The conversions on what the patterns capture *)

Section Captured.
Import Re.

Lemma py_float_digits ip : ip ≠ [] → forallb is_digit ip = true → ∃ q, py_float ip = Ok q.
Proof.
  intros Hne Hall. unfold py_float.
  destruct (take_while_stop is_digit ip [] Hall I) as [E1 E2].
  rewrite app_nil_r in E1, E2. rewrite E1, E2.
  destruct ip; [congruence|eauto].
Qed.

Lemma py_float_point ip c fp :
  ip ≠ [] → forallb is_digit ip = true → is_dot c = true →
  forallb is_digit fp = true → ∃ q, py_float (ip ++ c :: fp)%list = Ok q.
Proof.
  intros Hne Hall Hdot Hfp. unfold py_float.
  destruct (take_while_stop is_digit ip (c :: fp) Hall (dot_not_digit c Hdot))
    as [-> ->].
  rewrite Hdot, Hfp. destruct ip; [congruence|simpl; eauto].
Qed.

Lemma py_float_number s g : number_text s = Some g → ∃ q, py_float g = Ok q.
Proof.
  unfold number_text.
  pose proof (take_while_all is_digit s) as Hall.
  destruct (take_while is_digit s) as [|d ip] eqn:Hip; [discriminate|].
  intros [= <-].
  destruct (drop_while is_digit s) as [|c s'] eqn:Hrest.
  - rewrite app_nil_r. now apply (py_float_digits (d :: ip)).
  - destruct (is_dot c) eqn:Hdot.
    + apply (py_float_point (d :: ip)); auto using take_while_all.
    + rewrite app_nil_r. now apply (py_float_digits (d :: ip)).
Qed.

Lemma py_int_integer s g :
  integer_text s = Some g →
  py_int g = if (int_max_str_digits <? N.of_nat (length g))%N then Raise ValueError
             else Ok (Z.of_N (digits_value g)).
Proof.
  unfold integer_text.
  pose proof (take_while_all is_digit s) as Hall.
  destruct (take_while is_digit s) as [|d ip]; [discriminate|].
  intros [= <-]. unfold py_int. rewrite Hall. reflexivity.
Qed.

Lemma after_seps_Some number s g :
  after_seps number s = Some g → ∃ t, number t = Some g.
Proof.
  unfold after_seps. destruct (take_while is_sep s); [discriminate|]. eauto.
Qed.

Lemma rematch_name_Some first name pat s g :
  rematch (one_of first :: lit name ++ pat) s = Some g →
  ∃ t, rematch pat t = Some g.
Proof.
  rewrite rematch_name. destruct s as [|c s]; [discriminate|].
  destruct (existsb (N.eqb c) first && starts_with name s); [eauto|discriminate].
Qed.

Lemma search_float_ok first name s g :
  search (one_of first :: lit name ++ sep_number) s = Some g →
  ∃ q, py_float g = Ok q.
Proof.
  intros H. apply search_Some in H as (pre & t & _ & H).
  apply rematch_name_Some in H as (t' & H).
  rewrite rematch_sep_number in H.
  apply after_seps_Some in H as (t'' & H).
  now apply py_float_number in H.
Qed.

Lemma search_int_value first name s g :
  search (one_of first :: lit name ++ sep_integer) s = Some g →
  py_int g = if (int_max_str_digits <? N.of_nat (length g))%N then Raise ValueError
             else Ok (Z.of_N (digits_value g)).
Proof.
  intros H. apply search_Some in H as (pre & t & _ & H).
  apply rematch_name_Some in H as (t' & H).
  rewrite rematch_sep_integer in H.
  apply after_seps_Some in H as (t'' & H).
  now apply py_int_integer in H.
Qed.

End Captured.

Lemma float_readings_ok first name row :
  ∃ rs, float_readings (Re.one_of first :: Re.lit name ++ Re.sep_number) row = Ok rs
        ∧ Forall float_valued rs ∧ (length rs ≤ 1)%nat.
Proof.
  unfold float_readings.
  destruct (Re.search _ (message_of row)) as [g|] eqn:Hs.
  - destruct (search_float_ok _ _ _ _ Hs) as [q ->]. simpl.
    eexists; split; [reflexivity|]. split; [|simpl; lia].
    repeat constructor.
  - eexists; split; [reflexivity|]. split; [constructor|simpl; lia].
Qed.

Lemma motion_search_value row g :
  Re.search motion_re (message_of row) = Some g →
  py_int g = if (int_max_str_digits <? N.of_nat (length g))%N then Raise ValueError
             else Ok (Z.of_N (digits_value g)).
Proof. apply (search_int_value (text "Mm") (text "otion")). Qed.

Lemma motion_readings_ok row :
  motion_within_limit (message_of row) = true →
  ∃ rs, motion_readings row = Ok rs ∧ Forall int_valued rs ∧ (length rs ≤ 1)%nat.
Proof.
  unfold motion_within_limit, motion_readings.
  destruct (Re.search motion_re (message_of row)) as [g|] eqn:Hs.
  - intros Hle. rewrite (motion_search_value _ _ Hs).
    apply N.leb_le in Hle. apply N.ltb_ge in Hle. rewrite Hle. simpl.
    eexists; split; [reflexivity|]. split; [|simpl; lia].
    repeat constructor.
  - intros _. destruct (contains _ _);
      (eexists; split; [reflexivity|]; split; [repeat constructor|simpl; lia]).
Qed.

Lemma motion_readings_raises row :
  motion_within_limit (message_of row) = false →
  motion_readings row = Raise ValueError.
Proof.
  unfold motion_within_limit, motion_readings.
  destruct (Re.search motion_re (message_of row)) as [g|] eqn:Hs; [|discriminate].
  intros Hgt. rewrite (motion_search_value _ _ Hs).
  apply N.leb_gt in Hgt. apply N.ltb_lt in Hgt. rewrite Hgt. reflexivity.
Qed.

Lemma temperature_readings_ok row :
  ∃ rs, float_readings temperature_re row = Ok rs
        ∧ Forall float_valued rs ∧ (length rs ≤ 1)%nat.
Proof. apply (float_readings_ok (text "Tt") (text "emperature")). Qed.

Lemma humidity_readings_ok row :
  ∃ rs, float_readings humidity_re row = Ok rs
        ∧ Forall float_valued rs ∧ (length rs ≤ 1)%nat.
Proof. apply (float_readings_ok (text "Hh") (text "umidity")). Qed.

(** What a line appends when the loop body returns. *)
Lemma parse_row_inv st row st' :
  parse_row st row = Ok st' →
  ∃ t h m,
    st' = {| temp_data := (temp_data st ++ t)%list;
             humidity_data := (humidity_data st ++ h)%list;
             motion_data := (motion_data st ++ m)%list |}
    ∧ float_readings temperature_re row = Ok t
    ∧ float_readings humidity_re row = Ok h
    ∧ motion_readings row = Ok m.
Proof.
  unfold parse_row.
  destruct (float_readings temperature_re row) as [t|e]; simpl; [|discriminate].
  destruct (float_readings humidity_re row) as [h|e]; simpl; [|discriminate].
  destruct (motion_readings row) as [m|e]; simpl; [|discriminate].
  intros [= <-]. exists t, h, m. auto.
Qed.

Lemma parse_row_ok st row :
  motion_within_limit (message_of row) = true →
  ∃ t h m,
    parse_row st row
    = Ok {| temp_data := (temp_data st ++ t)%list;
            humidity_data := (humidity_data st ++ h)%list;
            motion_data := (motion_data st ++ m)%list |}
    ∧ float_readings temperature_re row = Ok t
    ∧ float_readings humidity_re row = Ok h
    ∧ motion_readings row = Ok m.
Proof.
  intros Hlim.
  destruct (temperature_readings_ok row) as (t & Ht & _).
  destruct (humidity_readings_ok row) as (h & Hh & _).
  destruct (motion_readings_ok row Hlim) as (m & Hm & _).
  exists t, h, m. unfold parse_row.
  rewrite Ht, Hh, Hm. simpl. auto.
Qed.

Lemma parse_row_raises st row :
  motion_within_limit (message_of row) = false →
  parse_row st row = Raise ValueError.
Proof.
  intros Hlim.
  destruct (temperature_readings_ok row) as (t & Ht & _).
  destruct (humidity_readings_ok row) as (h & Hh & _).
  unfold parse_row.
  rewrite Ht, Hh, (motion_readings_raises row Hlim). reflexivity.
Qed.

Lemma parse_logs_from_ok logs :
  Forall (fun row => motion_within_limit (message_of row) = true) logs →
  ∀ st, ∃ parsed, foldM parse_row st logs = Ok parsed.
Proof.
  induction 1 as [|row logs Hrow _ IH]; intros st; simpl.
  - eauto.
  - destruct (parse_row_ok st row Hrow) as (t & h & m & -> & _). simpl. apply IH.
Qed.

(** C4, as the code has it.  The message "Temperature: 37.5°C" gives one
    temperature reading of value 37.5, "motion detected" one motion reading
    of value 1, and "System nominal" no reading.  On every line the
    conversions of the temperature and of the humidity return, and the
    readings are floats.  The body of the loop returns on a line exactly
    when the number its motion pattern finds, if any, has at most 4300
    digits; then the motion readings are integers; on any other line it
    raises [ValueError].  So the loop over a list of lines returns when the
    motion numbers of all its lines are within that limit. *)
Theorem extraction_examples_and_totality :
  extract (text "Temperature: 37.5°C")
  = Ok {| temp_data := [ {| reading_timestamp := 0; value := PyFloat (Qred 37.5);
                            reading_host := "unknown" |} ];
          humidity_data := []; motion_data := [] |}
  ∧ extract (text "motion detected")
    = Ok {| temp_data := []; humidity_data := [];
            motion_data := [ {| reading_timestamp := 0; value := PyInt 1;
                                reading_host := "unknown" |} ] |}
  ∧ extract (text "System nominal")
    = Ok {| temp_data := []; humidity_data := []; motion_data := [] |}
  ∧ (∀ row, ∃ t h,
        float_readings temperature_re row = Ok t
        ∧ float_readings humidity_re row = Ok h
        ∧ Forall float_valued t ∧ Forall float_valued h)
  ∧ (∀ st row,
        motion_within_limit (message_of row) = true →
        ∃ t h m,
          parse_row st row
          = Ok {| temp_data := (temp_data st ++ t)%list;
                  humidity_data := (humidity_data st ++ h)%list;
                  motion_data := (motion_data st ++ m)%list |}
          ∧ Forall float_valued t ∧ Forall float_valued h ∧ Forall int_valued m)
  ∧ (∀ st row,
        motion_within_limit (message_of row) = false →
        parse_row st row = Raise ValueError)
  ∧ (∀ logs,
        Forall (fun row => motion_within_limit (message_of row) = true) logs →
        ∃ parsed, parse_logs logs = Ok parsed).
Proof.
  split; [vm_compute; reflexivity|].
  split; [vm_compute; reflexivity|].
  split; [vm_compute; reflexivity|].
  split; [|split; [|split]].
  - intros row.
    destruct (temperature_readings_ok row) as (t & Ht & Ft & _).
    destruct (humidity_readings_ok row) as (h & Hh & Fh & _).
    exists t, h. auto.
  - intros st row Hlim.
    destruct (parse_row_ok st row Hlim) as (t & h & m & Hp & Ht & Hh & Hm).
    exists t, h, m. split; [exact Hp|].
    destruct (temperature_readings_ok row) as (t' & Ht' & Ft & _).
    destruct (humidity_readings_ok row) as (h' & Hh' & Fh & _).
    destruct (motion_readings_ok row Hlim) as (m' & Hm' & Fm & _).
    rewrite Ht in Ht'. rewrite Hh in Hh'. rewrite Hm in Hm'.
    injection Ht' as <-. injection Hh' as <-. injection Hm' as <-. auto.
  - apply parse_row_raises.
  - intros logs Hlogs. apply parse_logs_from_ok, Hlogs.
Qed.

Lemma extraction_examples_and_totality_witness :
  ∃ parsed,
    parse_logs [ {| message_of := text "Motion: 3"; timestamp := 7; host := "pi" |} ]
    = Ok parsed.
Proof.
  apply (proj2 (proj2 (proj2 (proj2 (proj2 (proj2
           extraction_examples_and_totality)))))).
  repeat constructor.
Defined.

(** C4 as stated fails: a motion number of 4301 digits is captured by the
    pattern and [int] raises on it, although 4300 digits are read. *)
Lemma long_motion_number_raises :
  extract (long_motion 4301) = Raise ValueError
  ∧ ∃ parsed, extract (long_motion 4300) = Ok parsed.
Proof.
  split; [vm_compute; reflexivity|].
  eexists. vm_compute. reflexivity.
Qed.

(** ** What the patterns match *)

Section Occurrences.
Import Re.

Lemma starts_with_app name s : starts_with name (name ++ s)%list = true.
Proof. induction name as [|a name IH]; simpl; [reflexivity|]. now rewrite N.eqb_refl. Qed.

(** The name, one or more separators and a digit: a match at this
    position, whose group is what the number is there. *)
Lemma rematch_occurrence first name grp number c0 seps ds rest :
  (∀ t, rematch grp t = number t) →
  (∀ c t, is_sep c = true → number (c :: t) = None) →
  existsb (N.eqb c0) first = true →
  seps ≠ [] → forallb is_sep seps = true →
  ds ≠ [] → forallb is_digit ds = true →
  rematch (one_of first :: lit name ++ Item is_sep Plus false :: grp)
          (c0 :: name ++ seps ++ ds ++ rest)%list
  = number (ds ++ rest)%list.
Proof.
  intros Hgrp Hnum Hc0 Hseps Hsep Hds Hdig.
  rewrite rematch_name, Hc0, starts_with_app, drop_app_length. cbn [andb].
  rewrite (rematch_seps grp number) by assumption.
  unfold after_seps.
  destruct ds as [|d ds]; [congruence|].
  simpl in Hdig. apply andb_prop in Hdig as [Hd _].
  destruct (take_while_stop is_sep seps ((d :: ds) ++ rest)%list Hsep
              (digit_not_sep d Hd)) as [-> ->].
  destruct seps; [congruence|reflexivity].
Qed.

Lemma number_text_digits ds rest :
  ds ≠ [] → forallb is_digit ds = true → is_Some (number_text (ds ++ rest)%list).
Proof.
  intros Hds Hdig. destruct ds as [|d ds]; [congruence|].
  simpl in Hdig. apply andb_prop in Hdig as [Hd _].
  unfold number_text. simpl. rewrite Hd. eauto.
Qed.

Lemma integer_text_digits ds rest :
  forallb is_digit ds = true → ds ≠ [] →
  match rest with c :: _ => is_digit c = false | [] => True end →
  integer_text (ds ++ rest)%list = Some ds.
Proof.
  intros Hdig Hds Hrest. unfold integer_text.
  destruct (take_while_stop is_digit ds rest Hdig Hrest) as [-> _].
  destruct ds; [congruence|reflexivity].
Qed.

Lemma integer_text_some ds rest :
  ds ≠ [] → forallb is_digit ds = true → is_Some (integer_text (ds ++ rest)%list).
Proof.
  intros Hds Hdig. destruct ds as [|d ds]; [congruence|].
  simpl in Hdig. apply andb_prop in Hdig as [Hd _].
  unfold integer_text. simpl. rewrite Hd. eauto.
Qed.

(** The name directly followed by a digit: no match at this position. *)
Lemma rematch_no_separator first name grp number c0 d rest :
  (∀ t, rematch grp t = number t) →
  (∀ c t, is_sep c = true → number (c :: t) = None) →
  is_digit d = true →
  rematch (one_of first :: lit name ++ Item is_sep Plus false :: grp)
          (c0 :: name ++ d :: rest)%list
  = None.
Proof.
  intros Hgrp Hnum Hd.
  rewrite rematch_name, starts_with_app, drop_app_length.
  destruct (existsb (N.eqb c0) first); [|reflexivity]. simpl.
  now rewrite (digit_not_sep d Hd).
Qed.

Lemma search_here pat s g : rematch pat s = Some g → search pat s = Some g.
Proof. intros H. destruct s; simpl; now rewrite H. Qed.

End Occurrences.

Ltac split_spellings H :=
  unfold spellings in H;
  repeat (destruct H as [H|H]; [injection H as <- <-|]); [..|destruct H].

Lemma spelling_matches re name pre seps ds rest :
  In (re, name) spellings →
  seps ≠ [] → forallb Re.is_sep seps = true →
  ds ≠ [] → forallb is_digit ds = true →
  is_Some (Re.search re (pre ++ name ++ seps ++ ds ++ rest)%list).
Proof.
  intros Hin Hseps Hsep Hds Hdig. apply search_app.
  split_spellings Hin.
  - change (text "Temperature") with (84 :: text "emperature")%N.
    unfold temperature_re, Re.sep_number. rewrite <- app_comm_cons.
    rewrite (rematch_occurrence _ _ _ number_text);
      auto using rematch_number, number_text_sep, number_text_digits.
  - change (text "temperature") with (116 :: text "emperature")%N.
    unfold temperature_re, Re.sep_number. rewrite <- app_comm_cons.
    rewrite (rematch_occurrence _ _ _ number_text);
      auto using rematch_number, number_text_sep, number_text_digits.
  - change (text "Humidity") with (72 :: text "umidity")%N.
    unfold humidity_re, Re.sep_number. rewrite <- app_comm_cons.
    rewrite (rematch_occurrence _ _ _ number_text);
      auto using rematch_number, number_text_sep, number_text_digits.
  - change (text "humidity") with (104 :: text "umidity")%N.
    unfold humidity_re, Re.sep_number. rewrite <- app_comm_cons.
    rewrite (rematch_occurrence _ _ _ number_text);
      auto using rematch_number, number_text_sep, number_text_digits.
  - change (text "Motion") with (77 :: text "otion")%N.
    unfold motion_re, Re.sep_integer. rewrite <- app_comm_cons.
    rewrite (rematch_occurrence _ _ _ integer_text);
      auto using rematch_integer, integer_text_sep, integer_text_some.
  - change (text "motion") with (109 :: text "otion")%N.
    unfold motion_re, Re.sep_integer. rewrite <- app_comm_cons.
    rewrite (rematch_occurrence _ _ _ integer_text);
      auto using rematch_integer, integer_text_sep, integer_text_some.
Qed.

Lemma spelling_needs_separator re name ds rest :
  In (re, name) spellings →
  ds ≠ [] → forallb is_digit ds = true →
  Re.rematch re (name ++ ds ++ rest)%list = None.
Proof.
  intros Hin Hds Hdig.
  destruct ds as [|d ds]; [congruence|].
  simpl in Hdig. apply andb_prop in Hdig as [Hd _].
  rewrite <- app_comm_cons.
  split_spellings Hin.
  - change (text "Temperature") with (84 :: text "emperature")%N.
    unfold temperature_re, Re.sep_number. rewrite <- app_comm_cons.
    now apply (rematch_no_separator _ _ _ number_text);
      auto using rematch_number, number_text_sep.
  - change (text "temperature") with (116 :: text "emperature")%N.
    unfold temperature_re, Re.sep_number. rewrite <- app_comm_cons.
    now apply (rematch_no_separator _ _ _ number_text);
      auto using rematch_number, number_text_sep.
  - change (text "Humidity") with (72 :: text "umidity")%N.
    unfold humidity_re, Re.sep_number. rewrite <- app_comm_cons.
    now apply (rematch_no_separator _ _ _ number_text);
      auto using rematch_number, number_text_sep.
  - change (text "humidity") with (104 :: text "umidity")%N.
    unfold humidity_re, Re.sep_number. rewrite <- app_comm_cons.
    now apply (rematch_no_separator _ _ _ number_text);
      auto using rematch_number, number_text_sep.
  - change (text "Motion") with (77 :: text "otion")%N.
    unfold motion_re, Re.sep_integer. rewrite <- app_comm_cons.
    now apply (rematch_no_separator _ _ _ integer_text);
      auto using rematch_integer, integer_text_sep.
  - change (text "motion") with (109 :: text "otion")%N.
    unfold motion_re, Re.sep_integer. rewrite <- app_comm_cons.
    now apply (rematch_no_separator _ _ _ integer_text);
      auto using rematch_integer, integer_text_sep.
Qed.

(** C5, as the code has it.  A message in which a metric name, capitalised
    or in lower case, is followed by one or more separators (colon, equals
    sign or white space) and then by a digit is matched by the pattern of
    that metric; the separator is required: where the name is directly
    followed by the digits there is no match at that place. *)
Theorem name_separators_number_matched re name pre seps ds rest :
  In (re, name) spellings →
  seps ≠ [] → forallb Re.is_sep seps = true →
  ds ≠ [] → forallb is_digit ds = true →
  is_Some (Re.search re (pre ++ name ++ seps ++ ds ++ rest)%list)
  ∧ Re.rematch re (name ++ ds ++ rest)%list = None.
Proof.
  intros. split.
  - now apply spelling_matches.
  - now apply spelling_needs_separator.
Qed.

Lemma name_separators_number_matched_witness :
  is_Some (Re.search temperature_re (text "temperature: 30"))
  ∧ Re.rematch temperature_re (text "temperature30") = None.
Proof.
  apply (name_separators_number_matched
           temperature_re (text "temperature") [] (text ": ") (text "30") []).
  - right. left. reflexivity.
  - discriminate.
  - vm_compute. reflexivity.
  - discriminate.
  - vm_compute. reflexivity.
Defined.

(** C5 as stated fails: an upper-case name is not matched, and neither is a
    name without a separator before the number. *)
Lemma uppercase_or_unseparated_not_matched :
  Re.search temperature_re (text "TEMPERATURE=30") = None
  ∧ extract (text "TEMPERATURE=30")
    = Ok {| temp_data := []; humidity_data := []; motion_data := [] |}
  ∧ Re.search temperature_re (text "temperature: 30") = Some (text "30")
  ∧ Re.search temperature_re (text "Temperature30") = None.
Proof. repeat split; vm_compute; reflexivity. Qed.

(** ** One reading per family *)

Lemma float_readings_length re row rs :
  float_readings re row = Ok rs →
  length rs = match Re.search re (message_of row) with Some _ => 1 | None => 0 end.
Proof.
  unfold float_readings. destruct (Re.search re (message_of row)).
  - destruct (py_float l); simpl; [|discriminate]. now intros [= <-].
  - now intros [= <-].
Qed.

Lemma motion_readings_length row rs :
  motion_readings row = Ok rs →
  length rs = match Re.search motion_re (message_of row) with
              | Some _ => 1
              | None =>
                if contains (text "motion detected") (lower (message_of row))
                then 1 else 0
              end.
Proof.
  unfold motion_readings. destruct (Re.search motion_re (message_of row)).
  - destruct (py_int l); simpl; [|discriminate]. now intros [= <-].
  - destruct (contains _ _); now intros [= <-].
Qed.

(** C6, as the code has it.  The temperature and the humidity of a line are
    read on their own account: one reading exactly when the pattern
    matches.  When the number the motion pattern finds, if any, has at most
    4300 digits, the line appends to each of the three lists on its own
    account: one temperature reading exactly when the temperature pattern
    matches, one humidity reading exactly when the humidity pattern
    matches, one motion reading exactly when the motion pattern or the
    phrase is found; such a line that matches the temperature and the
    humidity pattern gives one reading of each.
    "Temperature: 22.0, Humidity: 55" gives exactly the two readings 22.0
    and 55. *)
Theorem one_reading_per_family :
  (∀ row, ∃ t h,
      float_readings temperature_re row = Ok t
      ∧ float_readings humidity_re row = Ok h
      ∧ length t = match Re.search temperature_re (message_of row) with
                   | Some _ => 1 | None => 0 end
      ∧ length h = match Re.search humidity_re (message_of row) with
                   | Some _ => 1 | None => 0 end)
  ∧ (∀ st row,
      motion_within_limit (message_of row) = true →
      ∃ t h m,
        parse_row st row
        = Ok {| temp_data := (temp_data st ++ t)%list;
                humidity_data := (humidity_data st ++ h)%list;
                motion_data := (motion_data st ++ m)%list |}
        ∧ length t = match Re.search temperature_re (message_of row) with
                     | Some _ => 1 | None => 0 end
        ∧ length h = match Re.search humidity_re (message_of row) with
                     | Some _ => 1 | None => 0 end
        ∧ length m = match Re.search motion_re (message_of row) with
                     | Some _ => 1
                     | None =>
                       if contains (text "motion detected") (lower (message_of row))
                       then 1 else 0
                     end)
  ∧ (∀ row,
      motion_within_limit (message_of row) = true →
      is_Some (Re.search temperature_re (message_of row)) →
      is_Some (Re.search humidity_re (message_of row)) →
      ∃ qt qh m,
        parse_logs [row]
        = Ok {| temp_data := [reading row (PyFloat qt)];
                humidity_data := [reading row (PyFloat qh)];
                motion_data := m |})
  ∧ extract (text "Temperature: 22.0, Humidity: 55")
    = Ok {| temp_data := [ {| reading_timestamp := 0; value := PyFloat (Qred 22.0);
                              reading_host := "unknown" |} ];
            humidity_data := [ {| reading_timestamp := 0; value := PyFloat (Qred 55);
                                  reading_host := "unknown" |} ];
            motion_data := [] |}.
Proof.
  split; [|split; [|split]].
  - intros row.
    destruct (temperature_readings_ok row) as (t & Ht & _).
    destruct (humidity_readings_ok row) as (h & Hh & _).
    exists t, h. auto using float_readings_length.
  - intros st row Hlim.
    destruct (parse_row_ok st row Hlim) as (t & h & m & Hp & Ht & Hh & Hm).
    exists t, h, m. split; [exact Hp|].
    auto using float_readings_length, motion_readings_length.
  - intros row Hlim [gt Ht] [gh Hh].
    destruct (search_float_ok _ _ _ _ Ht) as [qt Hqt].
    destruct (search_float_ok _ _ _ _ Hh) as [qh Hqh].
    destruct (motion_readings_ok row Hlim) as (m & Hm & _).
    exists qt, qh, m.
    unfold parse_logs, foldM, parse_row, float_readings.
    rewrite Ht, Hh, Hm, Hqt, Hqh. reflexivity.
  - vm_compute. reflexivity.
Qed.

Lemma one_reading_per_family_witness :
  ∃ qt qh m,
    extract (text "Temperature: 22.0, Humidity: 55")
    = Ok {| temp_data := [ {| reading_timestamp := 0; value := PyFloat qt;
                              reading_host := "unknown" |} ];
            humidity_data := [ {| reading_timestamp := 0; value := PyFloat qh;
                                  reading_host := "unknown" |} ];
            motion_data := m |}.
Proof.
  apply (proj1 (proj2 (proj2 one_reading_per_family))
           {| message_of := text "Temperature: 22.0, Humidity: 55";
              timestamp := 0; host := "unknown" |}).
  - vm_compute. reflexivity.
  - vm_compute. eauto.
  - vm_compute. eauto.
Defined.

(** C6 as stated fails: in a message whose motion number has 4301 digits
    the temperature and the humidity pattern match, yet the line gives no
    reading at all. *)
Lemma long_motion_drops_other_families :
  let msg := (text "Temperature: 22.0, Humidity: 55, " ++ long_motion 4301)%list in
  Re.search temperature_re msg = Some (text "22.0")
  ∧ Re.search humidity_re msg = Some (text "55")
  ∧ extract msg = Raise ValueError.
Proof. repeat split; vm_compute; reflexivity. Qed.

(** ** Motion: the explicit number wins over the phrase *)

(** C7, as the code has it.  When the motion pattern matches digits that
    are at most 4300, the line gives exactly one motion reading, the
    integer of the matched digits, whether or not the phrase
    "motion detected" is present; when it matches more digits, [int]
    raises.  The phrase, in any case of its letters, gives the value 1 only
    when the pattern does not match.  A message that contains "motion" or
    "Motion", separators and digits is matched by the pattern; when the
    number found is within the limit there is one reading, and when the
    message begins with the name the reading is the integer those digits
    spell.  "Motion: 0 ... motion detected" gives 0. *)
Theorem motion_number_before_phrase :
  (∀ row g,
      Re.search motion_re (message_of row) = Some g →
      (N.of_nat (length g) <= int_max_str_digits)%N →
      py_int g = Ok (Z.of_N (digits_value g))
      ∧ motion_readings row = Ok [reading row (PyInt (Z.of_N (digits_value g)))])
  ∧ (∀ row g,
      Re.search motion_re (message_of row) = Some g →
      (int_max_str_digits < N.of_nat (length g))%N →
      motion_readings row = Raise ValueError)
  ∧ (∀ row,
      Re.search motion_re (message_of row) = None →
      motion_readings row
      = Ok (if contains (text "motion detected") (lower (message_of row))
            then [reading row (PyInt 1)] else []))
  ∧ (∀ row name pre seps ds rest,
      name = text "Motion" ∨ name = text "motion" →
      seps ≠ [] → forallb Re.is_sep seps = true →
      ds ≠ [] → forallb is_digit ds = true →
      message_of row = (pre ++ name ++ seps ++ ds ++ rest)%list →
      is_Some (Re.search motion_re (message_of row))
      ∧ (motion_within_limit (message_of row) = true →
         ∃ z, motion_readings row = Ok [reading row (PyInt z)]
              ∧ (pre = [] →
                 match rest with c :: _ => is_digit c = false | [] => True end →
                 z = Z.of_N (digits_value ds))))
  ∧ extract (text "Motion: 0 and motion detected")
    = Ok {| temp_data := []; humidity_data := [];
            motion_data := [ {| reading_timestamp := 0; value := PyInt 0;
                                reading_host := "unknown" |} ] |}
  ∧ extract (text "Motion Detected in hall")
    = Ok {| temp_data := []; humidity_data := [];
            motion_data := [ {| reading_timestamp := 0; value := PyInt 1;
                                reading_host := "unknown" |} ] |}.
Proof.
  split; [|split; [|split; [|split; [|split]]]].
  - intros row g Hg Hle. pose proof (motion_search_value _ _ Hg) as Hz.
    apply N.ltb_ge in Hle. rewrite Hle in Hz.
    split; [exact Hz|]. unfold motion_readings. now rewrite Hg, Hz.
  - intros row g Hg Hgt. pose proof (motion_search_value _ _ Hg) as Hz.
    apply N.ltb_lt in Hgt. rewrite Hgt in Hz.
    unfold motion_readings. now rewrite Hg, Hz.
  - intros row Hn. unfold motion_readings. rewrite Hn.
    now destruct (contains _ _).
  - intros row name pre seps ds rest Hname Hseps Hsep Hds Hdig Hmsg.
    assert (Hin : In (motion_re, name) spellings).
    { unfold spellings. destruct Hname as [-> | ->]; simpl; tauto. }
    destruct (spelling_matches motion_re name pre seps ds rest Hin Hseps Hsep Hds Hdig)
      as [g Hg].
    rewrite <- Hmsg in Hg.
    split; [rewrite Hg; eauto|].
    unfold motion_within_limit. rewrite Hg. intros Hle.
    pose proof (motion_search_value _ _ Hg) as Hz.
    apply N.leb_le in Hle. apply N.ltb_ge in Hle. rewrite Hle in Hz.
    eexists. split.
    { unfold motion_readings. rewrite Hg, Hz. reflexivity. }
    intros -> Hrest. simpl in Hmsg. rewrite Hmsg in Hg.
    assert (Hhere : Re.rematch motion_re (name ++ seps ++ ds ++ rest)%list = Some ds).
    { destruct Hname as [-> | ->].
      - change (text "Motion") with (77 :: text "otion")%N.
        unfold motion_re, Re.sep_integer. rewrite <- app_comm_cons.
        rewrite (rematch_occurrence _ _ _ integer_text);
          auto using rematch_integer, integer_text_sep, integer_text_digits.
      - change (text "motion") with (109 :: text "otion")%N.
        unfold motion_re, Re.sep_integer. rewrite <- app_comm_cons.
        rewrite (rematch_occurrence _ _ _ integer_text);
          auto using rematch_integer, integer_text_sep, integer_text_digits. }
    apply search_here in Hhere. rewrite Hhere in Hg. injection Hg as <-.
    reflexivity.
  - vm_compute. reflexivity.
  - vm_compute. reflexivity.
Qed.

Lemma motion_number_before_phrase_witness :
  py_int (text "0") = Ok (Z.of_N (digits_value (text "0")))
  ∧ motion_readings {| message_of := text "Motion: 0 and motion detected";
                       timestamp := 0; host := "unknown" |}
    = Ok [ reading {| message_of := text "Motion: 0 and motion detected";
                      timestamp := 0; host := "unknown" |}
                   (PyInt (Z.of_N (digits_value (text "0")))) ].
Proof.
  apply (proj1 motion_number_before_phrase
           {| message_of := text "Motion: 0 and motion detected";
              timestamp := 0; host := "unknown" |} (text "0")).
  - vm_compute. reflexivity.
  - vm_compute. discriminate.
Defined.

(** C7 as stated fails: a message with "Motion", a separator and 4301
    digits gives no motion reading, with or without the phrase. *)
Lemma long_motion_number_gives_no_reading :
  motion_readings {| message_of := long_motion 4301; timestamp := 0; host := "unknown" |}
  = Raise ValueError
  ∧ motion_readings {| message_of := (long_motion 4301 ++ text " motion detected")%list;
                       timestamp := 0; host := "unknown" |}
    = Raise ValueError.
Proof. split; vm_compute; reflexivity. Qed.

(** ** The threshold blocks *)

Lemma rule_thresholds m :
  rule (rule_name m) (warning_key m) = Ok (fst (thresholds m))
  ∧ rule (rule_name m) "critical" = Ok (snd (thresholds m)).
Proof. destruct m; split; vm_compute; reflexivity. Qed.

Lemma thresholds_ordered m : (0 < fst (thresholds m) < snd (thresholds m))%Z.
Proof. destruct m; simpl; lia. Qed.

Lemma threshold_alerts_unfold m v :
  threshold_alerts m v
  = match ge v (snd (thresholds m)) with
    | Raise e => Raise e
    | Ok true => Ok [critical_alert m v]
    | Ok false =>
      match ge v (fst (thresholds m)) with
      | Raise e => Raise e
      | Ok true => Ok [warning_alert m v]
      | Ok false => Ok []
      end
    end.
Proof.
  unfold threshold_alerts. destruct (rule_thresholds m) as [-> ->].
  unfold mbind, result_bind.
  destruct (ge v (snd (thresholds m))) as [[|]|]; reflexivity.
Qed.

Lemma ge_above (n : Z) (v : Q) : (inject_Z n <= v)%Q → ge (CNum v) n = Ok true.
Proof. intros H. simpl. now apply Qle_bool_iff in H as ->. Qed.

Lemma ge_below (n : Z) (v : Q) : (v < inject_Z n)%Q → ge (CNum v) n = Ok false.
Proof.
  intros H. simpl. destruct (Qle_bool (inject_Z n) v) eqn:E; [|reflexivity].
  apply Qle_bool_iff in E. exfalso. exact (Qlt_not_le _ _ H E).
Qed.

Lemma ge_true_inv c n : ge c n = Ok true → ∃ v, c = CNum v ∧ (inject_Z n <= v)%Q.
Proof.
  destruct c; simpl; try discriminate. intros [= H].
  apply Qle_bool_iff in H. eauto.
Qed.

Lemma ge_false_inv v n : ge (CNum v) n = Ok false → (v < inject_Z n)%Q.
Proof.
  simpl. intros [= H]. apply Qnot_le_lt. intros Hle.
  apply Qle_bool_iff in Hle. congruence.
Qed.

Lemma below_warning_below_critical m v :
  (v < inject_Z (fst (thresholds m)))%Q → (v < inject_Z (snd (thresholds m)))%Q.
Proof.
  intros H. eapply Qlt_le_trans; [exact H|].
  rewrite <- Zle_Qle. pose proof (thresholds_ordered m). lia.
Qed.

Lemma threshold_alerts_shape m c l :
  threshold_alerts m c = Ok l →
  l = [] ∨ ∃ a, l = [a] ∧ about a = m ∧ justified a.
Proof.
  rewrite threshold_alerts_unfold.
  destruct (ge c (snd (thresholds m))) as [[|]|] eqn:Hc; [| |discriminate].
  - intros [= <-]. right. exists (critical_alert m c). split; [reflexivity|].
    split; [reflexivity|].
    apply ge_true_inv in Hc as (v & -> & Hv). exists v.
    change (about (critical_alert m (CNum v))) with m. simpl.
    split; [reflexivity|]. split; [|tauto].
    eapply Qle_trans; [|exact Hv].
    rewrite <- Zle_Qle. pose proof (thresholds_ordered m). lia.
  - destruct (ge c (fst (thresholds m))) as [[|]|] eqn:Hw; [| |discriminate].
    + intros [= <-]. right. exists (warning_alert m c). split; [reflexivity|].
      split; [reflexivity|].
      apply ge_true_inv in Hw as (v & -> & Hv). exists v.
      change (about (warning_alert m (CNum v))) with m. simpl.
      split; [reflexivity|]. split; [exact Hv|].
      split; [discriminate|]. intros Hcrit.
      apply ge_false_inv in Hc. exfalso. exact (Qlt_not_le _ _ Hc Hcrit).
    + intros [= <-]. now left.
Qed.

(** ** The shape of what [check_alerts] returns *)

Lemma bind_Ok {A B} (r : result A) (k : A → result B) b :
  r ≫= k = Ok b → ∃ a, r = Ok a ∧ k a = Ok b.
Proof. destruct r as [a|e]; [eauto|discriminate]. Qed.

Lemma sensor_alerts_shape recent_df sensor m l :
  sensor_alerts recent_df sensor m = Ok l → at_most_one m l.
Proof.
  unfold sensor_alerts. intros H.
  apply bind_Ok in H as (sensor_data & _ & H).
  destruct (empty sensor_data).
  { injection H as <-. now left. }
  apply bind_Ok in H as (latest & _ & H).
  destruct latest; try (unfold at_most_one; eapply threshold_alerts_shape; eassumption).
  injection H as <-. now left.
Qed.

Lemma system_alerts_shape recent_df l :
  system_alerts recent_df = Ok l →
  ∃ cpu memory disk,
    l = (cpu ++ memory ++ disk)%list
    ∧ at_most_one CPU cpu ∧ at_most_one Memory memory ∧ at_most_one Disk disk.
Proof.
  unfold system_alerts. intros H.
  apply bind_Ok in H as (sys_data & _ & H).
  destruct (empty sys_data).
  { injection H as <-. exists [], [], []. repeat split; now left. }
  apply bind_Ok in H as (latest_sys & _ & H).
  apply bind_Ok in H as (cpu & Hcpu & H).
  apply bind_Ok in H as (memory & Hmem & H).
  apply bind_Ok in H as (disk & Hdisk & H).
  injection H as <-. exists cpu, memory, disk.
  split; [reflexivity|].
  repeat split; unfold at_most_one; eapply threshold_alerts_shape; eassumption.
Qed.

Lemma check_alerts_shape now df l :
  check_alerts now df = Ok l →
  ∃ temperature humidity cpu memory disk,
    l = (temperature ++ humidity ++ cpu ++ memory ++ disk)%list
    ∧ at_most_one Temperature temperature ∧ at_most_one Humidity humidity
    ∧ at_most_one CPU cpu ∧ at_most_one Memory memory ∧ at_most_one Disk disk.
Proof.
  unfold check_alerts. intros H.
  apply bind_Ok in H as (recent_df & _ & H).
  destruct (empty recent_df).
  { injection H as <-. exists [], [], [], [], []. repeat split; now left. }
  apply bind_Ok in H as (t & Ht & H).
  apply bind_Ok in H as (h & Hh & H).
  apply bind_Ok in H as (s & Hs & H).
  injection H as <-.
  apply system_alerts_shape in Hs as (cpu & memory & disk & -> & Hc & Hm & Hd).
  exists t, h, cpu, memory, disk.
  split; [reflexivity|].
  repeat split; try assumption; eapply sensor_alerts_shape; eassumption.
Qed.

Lemma at_most_one_justified m l : at_most_one m l → Forall justified l.
Proof. intros [->|(a & -> & _ & Ha)]; repeat constructor; assumption. Qed.

Lemma check_alerts_justified now df l :
  check_alerts now df = Ok l → Forall justified l.
Proof.
  intros H.
  apply check_alerts_shape in H as (t & h & c & m & d & -> & Ht & Hh & Hc & Hm & Hd).
  rewrite !Forall_app. eauto 10 using at_most_one_justified.
Qed.

Lemma table_alerts_bands name w c t T v :
  rule name "high" = Ok w → rule name "critical" = Ok c → (w <= c)%Z →
  ((v < inject_Z w)%Q → table_alerts (Ok t) T name (CNum v) = Ok [])
  ∧ ((inject_Z c <= v)%Q →
     table_alerts (Ok t) T name (CNum v)
     = Ok [ {| Time := t; Type_ := T; Severity := CRITICAL; Message := CNum v |} ]).
Proof.
  intros Hw Hc Hwc. unfold table_alerts. rewrite Hw, Hc. unfold mbind, result_bind.
  split; intros Hv.
  - rewrite (ge_below c), (ge_below w); [reflexivity|assumption|].
    eapply Qlt_le_trans; [exact Hv|]. now rewrite <- Zle_Qle.
  - now rewrite (ge_above c).
Qed.

(** C1, as the code has it.  For each of the five metrics the banner
    evaluates (temperature, humidity, cpu, memory, disk), with the warning
    (or high) and the critical threshold the rule table gives it: a value
    strictly below the warning threshold produces no alert for the metric,
    and a value at or above the critical threshold produces exactly one
    alert, of severity CRITICAL.  The same holds for the two metrics the
    alerts table evaluates, temperature and humidity.  Every alert that
    [check_alerts] returns is for a value at or above the warning threshold
    of its metric and is CRITICAL exactly when the value is at or above the
    critical one. *)
Theorem evaluated_metrics_threshold_bands :
  (∀ m w c v,
      rule (rule_name m) (warning_key m) = Ok w →
      rule (rule_name m) "critical" = Ok c →
      ((v < inject_Z w)%Q → threshold_alerts m (CNum v) = Ok [])
      ∧ ((inject_Z c <= v)%Q →
         threshold_alerts m (CNum v) = Ok [critical_alert m (CNum v)]))
  ∧ (∀ name w c t T v,
      name = "temperature" ∨ name = "humidity" →
      rule name "high" = Ok w →
      rule name "critical" = Ok c →
      ((v < inject_Z w)%Q → table_alerts (Ok t) T name (CNum v) = Ok [])
      ∧ ((inject_Z c <= v)%Q →
         table_alerts (Ok t) T name (CNum v)
         = Ok [ {| Time := t; Type_ := T; Severity := CRITICAL; Message := CNum v |} ]))
  ∧ (∀ now df alerts, check_alerts now df = Ok alerts → Forall justified alerts).
Proof.
  split; [|split].
  - intros m w c v Hw Hc.
    destruct (rule_thresholds m) as [Hw' Hc'].
    rewrite Hw' in Hw. rewrite Hc' in Hc. injection Hw as <-. injection Hc as <-.
    rewrite threshold_alerts_unfold. split; intros Hv.
    + rewrite (ge_below (snd (thresholds m))), (ge_below (fst (thresholds m)));
        auto using below_warning_below_critical.
    + now rewrite (ge_above (snd (thresholds m))).
  - intros name w c t T v Hname Hw Hc.
    apply table_alerts_bands; [assumption..|].
    destruct Hname as [-> | ->]; vm_compute in Hw, Hc;
      injection Hw as <-; injection Hc as <-; lia.
  - apply check_alerts_justified.
Qed.

Lemma evaluated_metrics_threshold_bands_witness :
  threshold_alerts Temperature (CNum 50)
  = Ok [critical_alert Temperature (CNum 50)].
Proof.
  apply (proj1 evaluated_metrics_threshold_bands Temperature 35%Z 45%Z 50%Q).
  - vm_compute. reflexivity.
  - vm_compute. reflexivity.
  - vm_compute. discriminate.
Defined.

(** C1 as stated fails for the sixth metric of the rule table: packet loss
    has a warning and a critical threshold, yet a network record whose
    packet loss is above the critical threshold produces no alert, neither
    in the banner nor in the table. *)
Lemma packet_loss_never_alerts :
  rule "packet_loss" "warning" = Ok 2%Z
  ∧ rule "packet_loss" "critical" = Ok 5%Z
  ∧ check_alerts (seconds 110)
      (DataFrame_of
         [ list_to_map [ ("@timestamp", CTime (seconds 100));
                         ("sensor_type", CStr "network_device");
                         ("packet_loss_percent", CNum 10) ] ])
    = Ok []
  ∧ generate_alerts_table (seconds 110)
      (DataFrame_of
         [ list_to_map [ ("@timestamp", CTime (seconds 100));
                         ("sensor_type", CStr "network_device");
                         ("packet_loss_percent", CNum 10) ] ])
      None
    = Ok [].
Proof. repeat split; vm_compute; reflexivity. Qed.


(** ** The banner depends on the clock only through the rows it selects *)

(** C8, as the code has it.  [check_alerts] reads the clock, and its result
    is a function of the rows the clock reading selects, together with the
    columns of the frame: two calls whose frames of recent rows coincide
    return the same outcome, the same list in the same order or the same
    exception.  The alerts of a returned list come in the order temperature,
    humidity, cpu, memory, disk, at most one for each. *)
Theorem alerts_determined_by_recent_rows :
  (∀ now1 now2 df1 df2,
      recent now1 df1 = recent now2 df2 →
      check_alerts now1 df1 = check_alerts now2 df2)
  ∧ (∀ now df alerts,
      check_alerts now df = Ok alerts →
      strictly_increasing (map (fun a => metric_rank (about a)) alerts) = true).
Proof.
  split.
  - intros now1 now2 df1 df2 H. unfold check_alerts. now rewrite H.
  - intros now df alerts H.
    apply check_alerts_shape in H
      as (t & h & c & m & d & -> & Ht & Hh & Hc & Hm & Hd).
    destruct Ht as [->|(a1 & -> & E1 & _)], Hh as [->|(a2 & -> & E2 & _)],
             Hc as [->|(a3 & -> & E3 & _)], Hm as [->|(a4 & -> & E4 & _)],
             Hd as [->|(a5 & -> & E5 & _)];
      simpl; rewrite ?E1, ?E2, ?E3, ?E4, ?E5; reflexivity.
Qed.

Lemma alerts_determined_by_recent_rows_witness :
  check_alerts (seconds 110)
    (DataFrame_of [ list_to_map [ ("@timestamp", CTime (seconds 100));
                                  ("sensor_type", CStr "temperature");
                                  ("value", CNum 50) ] ])
  = check_alerts (seconds 120)
      (DataFrame_of [ list_to_map [ ("@timestamp", CTime (seconds 100));
                                    ("sensor_type", CStr "temperature");
                                    ("value", CNum 50) ] ]).
Proof.
  apply (proj1 alerts_determined_by_recent_rows).
  vm_compute. reflexivity.
Defined.

(** C8 as stated fails: the same frame gives a critical alert ten seconds
    after its only record and no alert a hundred seconds after it. *)
Lemma same_frame_later_clock_other_alerts :
  check_alerts (seconds 110)
    (DataFrame_of [ list_to_map [ ("@timestamp", CTime (seconds 100));
                                  ("sensor_type", CStr "temperature");
                                  ("value", CNum 50) ] ])
  = Ok [critical_alert Temperature (CNum 50)]
  ∧ check_alerts (seconds 200)
      (DataFrame_of [ list_to_map [ ("@timestamp", CTime (seconds 100));
                                    ("sensor_type", CStr "temperature");
                                    ("value", CNum 50) ] ])
    = Ok []
  ∧ check_alerts (seconds 110)
      (DataFrame_of [ list_to_map [ ("@timestamp", CTime (seconds 100));
                                    ("sensor_type", CStr "temperature");
                                    ("value", CNum 50) ] ])
    ≠ check_alerts (seconds 200)
        (DataFrame_of [ list_to_map [ ("@timestamp", CTime (seconds 100));
                                      ("sensor_type", CStr "temperature");
                                      ("value", CNum 50) ] ]).
Proof.
  split; [vm_compute; reflexivity|].
  split; [vm_compute; reflexivity|].
  vm_compute. discriminate.
Qed.

(** ** No data *)

(** The rows selected are none: the banner has no alert. *)
Lemma no_recent_rows_no_alerts now df recent_df :
  recent now df = Ok recent_df → empty recent_df = true →
  check_alerts now df = Ok [].
Proof. intros H E. unfold check_alerts. rewrite H. simpl. now rewrite E. Qed.

(** A failed query and a query without hits give the same frame, and
    [update_dashboard] returns before it evaluates any alert. *)
Lemma fetch_failure_is_no_data now e :
  query_data (Raise e) = query_data (Ok [])
  ∧ alert_banner now (Raise e) = NoResults
  ∧ alert_banner now (Ok []) = NoResults.
Proof. repeat split. Qed.

(** C9 fails on the code.  A window that holds only application log
    records has no record of any sensor, and the frame built from it has no
    ['sensor_type'] column: [check_alerts] raises [KeyError] where the claim
    has it return the empty list, and the dashboard shows its error
    components.  (The frame without any column, which [query_data] returns
    for no hits and for a failed query, would raise on ['@timestamp'];
    [update_dashboard] does not pass it on.) *)
Theorem check_alerts_raises_without_sensor_column :
  check_alerts (seconds 110)
    (query_data (Ok [ list_to_map [ ("@timestamp", CTime (seconds 100));
                                    ("log_type", CStr "application");
                                    ("level", CStr "INFO");
                                    ("message", CStr "User login successful") ] ]))
  = Raise (KeyError "sensor_type")
  ∧ alert_banner (seconds 110)
      (Ok [ list_to_map [ ("@timestamp", CTime (seconds 100));
                          ("log_type", CStr "application");
                          ("level", CStr "INFO");
                          ("message", CStr "User login successful") ] ])
    = ErrorComponents (KeyError "sensor_type")
  ∧ check_alerts (seconds 110) (query_data (Ok [])) = Raise (KeyError "@timestamp").
Proof. repeat split; vm_compute; reflexivity. Qed.

(** ** The alerts table falls back on ['value'] *)

(** C10. In the alerts table the value compared is ['value'] (0 when the
    row has none) whenever the field named after the sensor is absent from
    the row, [None] or zero.  A temperature record whose temperature is 0
    and whose ['value'] is 40 gets a WARNING, one whose ['value'] is 50 a
    CRITICAL alert. *)
Theorem table_falls_back_on_value :
  (∀ row field,
      field ∉ index row
      ∨ value_at (data row) field = CNone
      ∨ (∃ q, value_at (data row) field = CNum q ∧ (q == 0)%Q) →
      field_or_value row field = get row "value" (CNum 0)
      ∧ ("value" ∉ index row → field_or_value row field = CNum 0))
  ∧ generate_alerts_table (seconds 110)
      (DataFrame_of [ list_to_map [ ("@timestamp", CTime (seconds 100));
                                    ("sensor_type", CStr "temperature");
                                    ("temperature", CNum 0);
                                    ("value", CNum 40) ] ])
      None
    = Ok [ {| Time := seconds 100; Type_ := "Temperature";
              Severity := WARNING; Message := CNum 40 |} ]
  ∧ generate_alerts_table (seconds 110)
      (DataFrame_of [ list_to_map [ ("@timestamp", CTime (seconds 100));
                                    ("sensor_type", CStr "temperature");
                                    ("temperature", CNum 0);
                                    ("value", CNum 50) ] ])
      None
    = Ok [ {| Time := seconds 100; Type_ := "Temperature";
              Severity := CRITICAL; Message := CNum 50 |} ].
Proof.
  split; [|split; vm_compute; reflexivity].
  intros row field H.
  assert (Hfalsy : truthy (get row field CNone) = false).
  { unfold get. destruct H as [H|[H|(q & H & Hq)]].
    - now rewrite bool_decide_eq_false_2.
    - destruct (bool_decide (field ∈ index row)); [now rewrite H|reflexivity].
    - destruct (bool_decide (field ∈ index row)); [|reflexivity].
      rewrite H. simpl. apply Qeq_bool_iff in Hq. now rewrite Hq. }
  unfold field_or_value, py_or. rewrite Hfalsy. split; [reflexivity|].
  intros Hv. unfold get. now rewrite (bool_decide_eq_false_2 _ Hv).
Qed.

Lemma table_falls_back_on_value_witness :
  field_or_value
    {| index := {["sensor_type"; "temperature"; "value"]};
       data := list_to_map [ ("sensor_type", CStr "temperature");
                             ("temperature", CNum 0); ("value", CNum 40) ] |}
    "temperature"
  = CNum 40.
Proof.
  refine (eq_trans (proj1 (proj1 table_falls_back_on_value _ _ _)) _).
  - right. right. exists 0%Q. split; [vm_compute; reflexivity|reflexivity].
  - vm_compute. reflexivity.
Defined.

(** ** Selecting rows *)

Lemma filterM_pure {A} (f : A → bool) (l : list A) :
  filterM (fun a => Ok (f a)) l = Ok (List.filter f l).
Proof.
  induction l as [|a l IH]; simpl; [reflexivity|].
  rewrite IH. simpl. now destruct (f a).
Qed.

Lemma filterM_all {A} (test : A → result bool) (l : list A) :
  Forall (fun a => test a = Ok true) l → filterM test l = Ok l.
Proof.
  induction 1 as [|a l Ha _ IH]; simpl; [reflexivity|].
  now rewrite Ha, IH.
Qed.

Lemma filterM_Forall {A} (P : A → Prop) (test : A → result bool) (l l' : list A) :
  filterM test l = Ok l' → Forall P l → Forall P l'.
Proof.
  revert l'. induction l as [|a l IH]; simpl; intros l' H Hl.
  - injection H as <-. constructor.
  - apply bind_Ok in H as (b & _ & H).
    apply bind_Ok in H as (rest & Hrest & H).
    injection H as <-. inversion Hl; subst.
    destruct b; [constructor|]; auto.
Qed.

Lemma filter_Forall {A} (P : A → Prop) (f : A → bool) (l : list A) :
  Forall P l → Forall P (List.filter f l).
Proof.
  induction 1 as [|a l Ha _ IH]; simpl; [constructor|].
  destruct (f a); [constructor|]; auto.
Qed.

Lemma rows_where_all df k test :
  k ∈ columns df →
  Forall (fun r => test (value_at r k) = Ok true) (records df) →
  rows_where df k test = Ok df.
Proof.
  intros Hk Hall. unfold rows_where.
  rewrite (bool_decide_eq_true_2 _ Hk), (filterM_all _ _ Hall).
  now destruct df.
Qed.

Lemma rows_where_Ok df k test df' :
  rows_where df k test = Ok df' →
  k ∈ columns df ∧ columns df' = columns df
  ∧ ∀ P, Forall P (records df) → Forall P (records df').
Proof.
  unfold rows_where. destruct (bool_decide (k ∈ columns df)) eqn:Hk; [|discriminate].
  apply bool_decide_eq_true_1 in Hk. intros H.
  apply bind_Ok in H as (rs & Hrs & H). injection H as <-. simpl.
  split; [assumption|]. split; [reflexivity|].
  intros P. now apply filterM_Forall with (test := fun r => test (value_at r k)).
Qed.

Lemma rows_where_pure df k f :
  k ∈ columns df →
  rows_where df k (fun c => Ok (f c))
  = Ok {| columns := columns df;
          records := List.filter (fun r => f (value_at r k)) (records df) |}.
Proof.
  intros Hk. unfold rows_where. rewrite (bool_decide_eq_true_2 _ Hk).
  now rewrite (filterM_pure (fun r => f (value_at r k))).
Qed.

Lemma DataFrame_of_columns docs d k :
  d ∈ docs → is_Some (d !! k) → k ∈ columns (DataFrame_of docs).
Proof.
  intros Hd Hk. simpl. apply elem_of_union_list.
  exists (dom d). split; [|now apply elem_of_dom].
  apply list_elem_of_fmap. eauto.
Qed.

Lemma DataFrame_of_record_columns docs :
  Forall (fun r => ∀ k, is_Some (r !! k) → k ∈ columns (DataFrame_of docs))
         (records (DataFrame_of docs)).
Proof.
  simpl. apply Forall_fmap, Forall_forall. intros d Hd k Hk. simpl in Hk.
  rewrite map_lookup_imap in Hk.
  apply (DataFrame_of_columns docs d); [assumption|].
  destruct (d !! k); [eauto|]. destruct Hk as [c Hc]. discriminate.
Qed.

(** ** The boundary of the critical band *)

(** C2. A window with a temperature record of value exactly 45 and one of
    value 44.9, both of the last ten minutes, evaluated against the rule
    high 35, critical 45: the alerts table has exactly two entries, CRITICAL
    for the record at 45 and WARNING for the record at 44.9.  The comparison
    with the threshold is inclusive. *)
Theorem boundary_is_inclusive now t1 t2 loki :
  (now - minutes 10 <= t1)%Z →
  (now - minutes 10 <= t2)%Z →
  rule "temperature" "high" = Ok 35%Z
  ∧ rule "temperature" "critical" = Ok 45%Z
  ∧ generate_alerts_table now
      (DataFrame_of [temperature_record t1 45; temperature_record t2 44.9]) loki
    = Ok [ {| Time := t1; Type_ := "Temperature";
              Severity := CRITICAL; Message := CNum 45 |};
           {| Time := t2; Type_ := "Temperature";
              Severity := WARNING; Message := CNum 44.9 |} ].
Proof.
  intros H1 H2.
  split; [vm_compute; reflexivity|]. split; [vm_compute; reflexivity|].
  unfold generate_alerts_table, frame_alert_records.
  rewrite rows_where_all.
  - vm_compute. reflexivity.
  - vm_compute. reflexivity.
  - replace (records (DataFrame_of [temperature_record t1 45; temperature_record t2 44.9]))
      with [temperature_record t1 45; temperature_record t2 44.9]
      by (vm_compute; reflexivity).
    repeat constructor.
    + change (value_at (temperature_record t1 45) "@timestamp") with (CTime t1).
      simpl. f_equal. now apply Z.leb_le.
    + change (value_at (temperature_record t2 44.9) "@timestamp") with (CTime t2).
      simpl. f_equal. now apply Z.leb_le.
Qed.

Lemma boundary_is_inclusive_witness :
  rule "temperature" "high" = Ok 35%Z
  ∧ rule "temperature" "critical" = Ok 45%Z
  ∧ generate_alerts_table (seconds 110)
      (DataFrame_of [temperature_record (seconds 100) 45;
                     temperature_record (seconds 95) 44.9]) None
    = Ok [ {| Time := seconds 100; Type_ := "Temperature";
              Severity := CRITICAL; Message := CNum 45 |};
           {| Time := seconds 95; Type_ := "Temperature";
              Severity := WARNING; Message := CNum 44.9 |} ].
Proof.
  apply (boundary_is_inclusive (seconds 110) (seconds 100) (seconds 95) None).
  - vm_compute. discriminate.
  - vm_compute. discriminate.
Defined.

(** ** A system health record without ['memory_percent'] *)

Lemma threshold_alerts_numeric m c :
  numeric c → ∃ l, threshold_alerts m c = Ok l.
Proof.
  intros Hc. rewrite threshold_alerts_unfold.
  destruct c; try contradiction; simpl; [|eauto].
  destruct (Qle_bool _ q); [eauto|]. destruct (Qle_bool _ q); eauto.
Qed.

Lemma threshold_alerts_missing m c :
  c = CNaN ∨ c = CNum 0 → threshold_alerts m c = Ok [].
Proof.
  intros [-> | ->]; rewrite threshold_alerts_unfold.
  - reflexivity.
  - now destruct m.
Qed.

Lemma numeric_get row k :
  numeric (value_at (data row) k) → numeric (get row k (CNum 0)).
Proof. intros H. unfold get. now destruct (bool_decide (k ∈ index row)). Qed.

Lemma readable_field d k : readable d → k ∈ metric_fields → numeric (value_at d k).
Proof. intros H Hk. unfold readable in H. rewrite Forall_forall in H. auto. Qed.

Lemma nonempty_frame df r rest :
  records df = r :: rest → "@timestamp" ∈ columns df → empty df = false.
Proof.
  intros Hr Hc. unfold empty. rewrite Hr, orb_false_r.
  apply bool_decide_eq_false_2. intros E. rewrite E in Hc. set_solver.
Qed.

Lemma sensor_alerts_total recent_df sensor m :
  "sensor_type" ∈ columns recent_df →
  sensor ∈ metric_fields →
  Forall readable (records recent_df) →
  ∃ l, sensor_alerts recent_df sensor m = Ok l.
Proof.
  intros Hcol Hs Hread. unfold sensor_alerts.
  rewrite (rows_where_pure _ _ (eq_str sensor) Hcol). simpl.
  pose proof (filter_Forall readable
                (fun r => eq_str sensor (value_at r "sensor_type")) _ Hread) as Hf.
  destruct (List.filter _ (records recent_df)) as [|r0 rest] eqn:Hrows.
  { unfold empty. simpl. rewrite orb_true_r. eauto. }
  destruct (empty _); [eauto|].
  inversion Hf as [|? ? Hr0 _]; subst.
  unfold iloc0, getitem. simpl.
  destruct (bool_decide (sensor ∈ columns recent_df)) eqn:E1; simpl.
  - rewrite ?E1. simpl.
    pose proof (readable_field r0 sensor Hr0 Hs) as Hn.
    destruct (value_at r0 sensor); try contradiction;
      now apply threshold_alerts_numeric.
  - destruct (bool_decide ("value" ∈ columns recent_df)) eqn:E2; simpl; [|eauto].
    rewrite ?E2. simpl.
    assert (Hn : numeric (value_at r0 "value")).
    { apply readable_field; [assumption|]. unfold metric_fields. repeat constructor. }
    destruct (value_at r0 "value"); try contradiction;
      now apply threshold_alerts_numeric.
Qed.

(** C3. Let the frame be built from the documents of the window, let its
    recent rows be selected without error, let [r] be the first system
    health record among them and let [r] have no ['memory_percent'] key,
    the metric fields of the recent rows holding numbers where they are
    present.  Then [check_alerts] returns a list, the list has no alert
    about memory (the check on the absent field yields nothing, be the
    column absent from the frame or present through other records), and
    when [r] has a ['cpu_percent'] at or above the warning threshold the
    list has the alert about it. *)
Theorem missing_memory_field_is_no_alert now docs recent_df r others :
  recent now (DataFrame_of docs) = Ok recent_df →
  List.filter is_system_health (records recent_df) = r :: others →
  r !! "memory_percent" = None →
  Forall readable (records recent_df) →
  ∃ alerts,
    check_alerts now (DataFrame_of docs) = Ok alerts
    ∧ Forall (fun a => about a ≠ Memory) alerts
    ∧ threshold_alerts Memory
        (get {| index := columns recent_df; data := r |} "memory_percent" (CNum 0))
      = Ok []
    ∧ (∀ v, r !! "cpu_percent" = Some (CNum v) →
            (60 <= v)%Q →
            ∃ a, a ∈ alerts ∧ message a = (CPU, CNum v)
                 ∧ (severity a = CRITICAL ↔ (90 <= v)%Q)).
Proof.
  intros Hrecent Hsys Hmem Hread.
  (* the frame of recent rows *)
  destruct (rows_where_Ok _ _ _ _ Hrecent) as (Hts & Hcols & Hsub).
  assert (Hr : r ∈ records recent_df).
  { apply list_elem_of_In.
    apply (proj1 (List.filter_In is_system_health r (records recent_df))).
    rewrite Hsys. now left. }
  assert (Hrsys : is_system_health r = true).
  { apply (proj1 (List.filter_In is_system_health r (records recent_df))).
    rewrite Hsys. now left. }
  assert (Hkey : ∀ k, is_Some (r !! k) → k ∈ columns recent_df).
  { specialize (Hsub _ (DataFrame_of_record_columns docs)).
    rewrite Forall_forall in Hsub. intros k Hk. rewrite Hcols. now apply (Hsub r). }
  assert (Hst : "sensor_type" ∈ columns recent_df).
  { apply Hkey. unfold is_system_health, value_at in Hrsys.
    destruct (r !! "sensor_type"); [eauto|discriminate]. }
  assert (Hne : empty recent_df = false).
  { destruct (records recent_df) as [|r0 rest] eqn:E; [inversion Hr|].
    apply (nonempty_frame _ r0 rest E). now rewrite Hcols. }
  (* the memory check *)
  assert (Hmemory :
    threshold_alerts Memory
      (get {| index := columns recent_df; data := r |} "memory_percent" (CNum 0))
    = Ok []).
  { apply threshold_alerts_missing. unfold get, value_at. simpl. rewrite Hmem.
    destruct (bool_decide _); auto. }
  (* the other checks *)
  assert (Hrr : readable r).
  { rewrite Forall_forall in Hread. auto. }
  destruct (sensor_alerts_total recent_df "temperature" Temperature Hst) as [t Ht];
    [unfold metric_fields; repeat constructor|assumption|].
  destruct (sensor_alerts_total recent_df "humidity" Humidity Hst) as [h Hh];
    [unfold metric_fields; repeat constructor|assumption|].
  set (latest_sys := {| index := columns recent_df; data := r |}) in *.
  destruct (threshold_alerts_numeric CPU (get latest_sys "cpu_percent" (CNum 0)))
    as [cpu Hcpu].
  { apply numeric_get, readable_field; [assumption|]. unfold metric_fields. repeat constructor. }
  destruct (threshold_alerts_numeric Disk (get latest_sys "disk_percent" (CNum 0)))
    as [disk Hdisk].
  { apply numeric_get, readable_field; [assumption|]. unfold metric_fields. repeat constructor. }
  assert (Hsystem : system_alerts recent_df = Ok (cpu ++ [] ++ disk)%list).
  { unfold system_alerts.
    rewrite (rows_where_pure _ _ (eq_str "system_health") Hst). simpl.
    change (List.filter (fun r0 => eq_str "system_health" (value_at r0 "sensor_type"))
              (records recent_df))
      with (List.filter is_system_health (records recent_df)).
    rewrite Hsys.
    replace (empty {| columns := columns recent_df; records := r :: others |})
      with false.
    2:{ symmetry.
        apply (nonempty_frame {| columns := columns recent_df; records := r :: others |}
                 r others eq_refl).
        simpl. now rewrite Hcols. }
    unfold iloc0. simpl. fold latest_sys.
    rewrite Hcpu. simpl. rewrite Hmemory. simpl. rewrite Hdisk. reflexivity. }
  exists (t ++ h ++ cpu ++ [] ++ disk)%list.
  split; [|split; [|split]].
  - unfold check_alerts. rewrite Hrecent. simpl. rewrite Hne, Ht. simpl.
    rewrite Hh. simpl. rewrite Hsystem. reflexivity.
  - apply sensor_alerts_shape in Ht. apply sensor_alerts_shape in Hh.
    apply threshold_alerts_shape in Hcpu. apply threshold_alerts_shape in Hdisk.
    assert (Hother : ∀ m l, at_most_one m l → m ≠ Memory →
                            Forall (fun a => about a ≠ Memory) l).
    { intros m l [->|(a & -> & E & _)] Hm; repeat constructor. now rewrite E. }
    rewrite !Forall_app. repeat split.
    + now apply (Hother Temperature).
    + now apply (Hother Humidity).
    + now apply (Hother CPU).
    + constructor.
    + now apply (Hother Disk).
  - exact Hmemory.
  - intros v Hv Hwarn.
    assert (Hget : get latest_sys "cpu_percent" (CNum 0) = CNum v).
    { unfold get, value_at. simpl.
      rewrite bool_decide_eq_true_2 by (apply Hkey; eauto). now rewrite Hv. }
    rewrite Hget, threshold_alerts_unfold in Hcpu.
    change (fst (thresholds CPU)) with 60%Z in Hcpu.
    change (snd (thresholds CPU)) with 90%Z in Hcpu.
    rewrite (ge_above 60 v Hwarn) in Hcpu.
    simpl ge in Hcpu.
    destruct (Qle_bool (inject_Z 90) v) eqn:Hcrit; injection Hcpu as <-.
    + exists (critical_alert CPU (CNum v)).
      split; [rewrite !elem_of_app, list_elem_of_singleton; auto|].
      split; [reflexivity|]. simpl. apply Qle_bool_iff in Hcrit. tauto.
    + exists (warning_alert CPU (CNum v)).
      split; [rewrite !elem_of_app, list_elem_of_singleton; auto|].
      split; [reflexivity|]. simpl. split; [discriminate|].
      intros Hle. apply Qle_bool_iff in Hle.
      change (Qle_bool (inject_Z 90) v = true) in Hle. congruence.
Qed.

Lemma missing_memory_field_is_no_alert_witness :
  ∃ alerts,
    check_alerts (seconds 110)
      (DataFrame_of
         [ list_to_map [ ("@timestamp", CTime (seconds 100));
                         ("sensor_type", CStr "system_health");
                         ("cpu_percent", CNum 95); ("disk_percent", CNum 10) ];
           list_to_map [ ("@timestamp", CTime (seconds 10));
                         ("sensor_type", CStr "system_health");
                         ("cpu_percent", CNum 20); ("memory_percent", CNum 99);
                         ("disk_percent", CNum 10) ] ])
    = Ok alerts
    ∧ Forall (fun a => about a ≠ Memory) alerts
    ∧ (∃ a, a ∈ alerts ∧ message a = (CPU, CNum 95)
            ∧ (severity a = CRITICAL ↔ (90 <= 95)%Q)).
Proof.
  set (r := list_to_map [ ("@timestamp", CTime (seconds 100));
                          ("sensor_type", CStr "system_health");
                          ("cpu_percent", CNum 95); ("disk_percent", CNum 10) ]
            : gmap string cell).
  set (old := list_to_map [ ("@timestamp", CTime (seconds 10));
                            ("sensor_type", CStr "system_health");
                            ("cpu_percent", CNum 20); ("memory_percent", CNum 99);
                            ("disk_percent", CNum 10) ]
              : gmap string cell).
  destruct (missing_memory_field_is_no_alert (seconds 110) [r; old]
              {| columns := columns (DataFrame_of [r; old]); records := [r] |}
              r [])
    as (alerts & Hcheck & Hmem & _ & Hcpu).
  - vm_compute. reflexivity.
  - vm_compute. reflexivity.
  - vm_compute. reflexivity.
  - constructor; [|constructor].
    unfold readable, metric_fields.
    repeat (constructor; [vm_compute; exact I|]). constructor.
  - exists alerts. split; [exact Hcheck|]. split; [exact Hmem|].
    apply (Hcpu 95%Q); [vm_compute; reflexivity|vm_compute; discriminate].
Defined.


(** * The code around the alerts

    The functions of the dashboard and of the Loki client that feed on the
    same frames and log lines: the banner of [generate_alert_banner], the
    log level of [LokiClient._extract_level], the statistics of
    [get_log_stats] and of the Loki section, the Loki branches of
    [generate_security_logs] and [generate_app_logs], the message column of
    the Loki table and the grouping by host of the charts drawn from log
    lines. *)

(** ** Log levels: [LokiClient._extract_level] *)

(** [str.upper], character by character.  Besides a-z, the characters of
    the table are the only ones whose upper case has an ASCII character;
    every other character maps to characters outside ASCII and is kept as
    it is, which changes no test for an ASCII word in the result. *)
Definition upper_table : list (N * list N) :=
  [ (223, [83; 83]); (305, [73]); (329, [700; 78]); (383, [83]);
    (496, [74; 780]); (7830, [72; 817]); (7831, [84; 776]);
    (7832, [87; 778]); (7833, [89; 778]); (7834, [65; 702]);
    (64256, [70; 70]); (64257, [70; 73]); (64258, [70; 76]);
    (64259, [70; 70; 73]); (64260, [70; 70; 76]); (64261, [83; 84]);
    (64262, [83; 84]) ]%N.

Definition upper_char (c : N) : list N :=
  if ((97 <=? c) && (c <=? 122))%N then [(c - 32)%N]
  else match find (fun e => (fst e =? c)%N) upper_table with
       | Some e => snd e
       | None => [c]
       end.

Definition upper (s : list N) : list N := flat_map upper_char s.

Definition _extract_level (message : list N) : string :=
  let message_upper := upper message in
  if contains (text "ERROR") message_upper then "ERROR"
  else if contains (text "WARN") message_upper then "WARN"
  else if contains (text "DEBUG") message_upper then "DEBUG"
  else "INFO".

(** The ['level'] column of a frame that [query_logs] built: the level of
    the message of the line. *)
Definition level (row : LogRow) : string := _extract_level (message_of row).

(** [len(df[df['level'] == lvl])] *)
Definition count_level (lvl : string) (df : list LogRow) : nat :=
  length (List.filter (fun row => String.eqb (level row) lvl) df).

(** ** Statistics: [get_log_stats], [create_loki_stats_card] and the
    counters of the Loki section *)

(** [df] is the frame [query_logs] returned; the empty list is the empty
    frame, which it also returns when the query failed.  A frame with lines
    has the ['level'] column, so the lookups of the function cannot fail
    and its exception handler is not entered. *)
Definition get_log_stats (df : list LogRow) : gmap string nat :=
  match df with
  | [] => list_to_map [("total", 0); ("errors", 0); ("warnings", 0); ("info", 0)]
  | _ :: _ =>
    list_to_map [ ("total", length df);
                  ("errors", count_level "ERROR" df);
                  ("warnings", count_level "WARN" df);
                  ("info", count_level "INFO" df);
                  ("debug", count_level "DEBUG" df) ]
  end.

(** [stats.get(k, 0)] *)
Definition stats_get (stats : gmap string nat) (k : string) : nat :=
  default 0 (stats !! k).

Definition create_loki_stats_card (df : list LogRow) : gmap string nat :=
  let stats := get_log_stats df in
  list_to_map [ ("total_logs", stats_get stats "total");
                ("errors", stats_get stats "errors");
                ("warnings", stats_get stats "warnings");
                ("info", stats_get stats "info") ].

(** The [stats] dict of [generate_loki_logs_section]. *)
Definition section_stats (logs_df : list LogRow) : gmap string nat :=
  list_to_map [ ("total", length logs_df);
                ("errors", count_level "ERROR" logs_df);
                ("warnings", count_level "WARN" logs_df);
                ("info", count_level "INFO" logs_df) ].

(** ** The Loki branches of [generate_security_logs] and [generate_app_logs] *)

(** One entry of [logs]: the time shown, the level, the colour of the
    level and the text under them. *)
Record LogEntry : Type := {
  entry_time : Z;
  entry_level : string;
  entry_color : string;
  entry_text : list N
}.

Definition info : string := "#3498db".
Definition text_color : string := "#2c3e50".

(** [lvl in levels] and [df[df['level'].isin(levels)]] *)
Definition isin (levels : list string) (lvl : string) : bool :=
  existsb (String.eqb lvl) levels.

(** [message[:60] + '...'] *)
Definition excerpt (message : list N) : list N :=
  (take 60 message ++ text "...")%list.

Definition security_entry (row : LogRow) : LogEntry :=
  {| entry_time := timestamp row;
     entry_level := level row;
     entry_color := if isin ["ERROR"; "CRITICAL"] (level row) then danger else warning;
     entry_text := excerpt (message_of row) |}.

(** The entries [generate_security_logs] builds from the Loki lines when
    the frame gave none. *)
Definition security_logs_from_loki (loki_logs : list LogRow) : list LogEntry :=
  map security_entry
      (take 5 (List.filter (fun row => isin ["ERROR"; "CRITICAL"] (level row)) loki_logs)).

Definition app_entry (row : LogRow) : LogEntry :=
  {| entry_time := timestamp row;
     entry_level := level row;
     entry_color := if String.eqb (level row) "INFO" then info else text_color;
     entry_text := excerpt (message_of row) |}.

(** The entries [generate_app_logs] builds from the Loki lines when the
    frame gave none. *)
Definition app_logs_from_loki (loki_logs : list LogRow) : list LogEntry :=
  map app_entry
      (take 5 (List.filter (fun row => isin ["INFO"; "DEBUG"] (level row)) loki_logs)).

(** ** Grouping by host: the charts drawn from log lines *)

(** [hosts]: a dict from host to its two lists, in the order the hosts
    were first seen. *)
Definition Hosts : Type := list (string * (list Z * list pyval)).

(** One turn of the loop: create the entry of the host if it is new, then
    append the point. *)
Fixpoint add_item (hosts : Hosts) (item : Reading) : Hosts :=
  match hosts with
  | [] => [(reading_host item, ([reading_timestamp item], [value item]))]
  | (h, (timestamps, values)) :: hosts' =>
    if String.eqb h (reading_host item)
    then (h, (timestamps ++ [reading_timestamp item], values ++ [value item])%list) :: hosts'
    else (h, (timestamps, values)) :: add_item hosts' item
  end.

Definition group_by_host (data : list Reading) : Hosts :=
  fold_left add_item data [].

(** [hosts[h]], [None] when [h not in hosts]. *)
Fixpoint hosts_get (h : string) (hosts : Hosts) : option (list Z * list pyval) :=
  match hosts with
  | [] => None
  | (h', points) :: hosts' =>
    if String.eqb h' h then Some points else hosts_get h hosts'
  end.

(** The traces of the figure: one per host, with the name of the host. *)
Definition generate_temp_humidity_chart_from_logs
    (temp_data humidity_data : list Reading) (chart_type : string) : Hosts :=
  if String.eqb chart_type "temperature"
     && match temp_data with [] => false | _ :: _ => true end
  then group_by_host temp_data
  else if String.eqb chart_type "humidity"
          && match humidity_data with [] => false | _ :: _ => true end
  then group_by_host humidity_data
  else [].

Definition generate_motion_chart_from_logs (motion_data : list Reading) : Hosts :=
  match motion_data with
  | [] => []
  | _ :: _ => group_by_host motion_data
  end.

(** The readings of host [h], in the order of the list. *)
Definition of_host (h : string) (data : list Reading) : list Reading :=
  List.filter (fun item => String.eqb (reading_host item) h) data.

(** ** Notions used in the statements *)

(** An entry of the alerts table is justified when it is about temperature
    or humidity, its value is a number at or above the high threshold of
    its rule and it is critical exactly when that value is at or above the
    critical one. *)
Definition table_rules : list (string * string) :=
  [("Temperature", "temperature"); ("Humidity", "humidity")].

Definition table_justified (a : AlertRecord) : Prop :=
  ∃ name v w c,
    In (Type_ a, name) table_rules
    ∧ Message a = CNum v
    ∧ rule name "high" = Ok w ∧ rule name "critical" = Ok c
    ∧ (inject_Z w <= v)%Q
    ∧ (Severity a = CRITICAL ↔ (inject_Z c <= v)%Q).

(** What the text of an entry shows is in keeping with its severity: the
    tenths shown are not below the high threshold, nor, for a critical
    entry, below the critical one. *)
Definition shown_justified (a : AlertRecord) : Prop :=
  ∃ name v w c,
    In (Type_ a, name) table_rules
    ∧ Message a = CNum v
    ∧ rule name "high" = Ok w ∧ rule name "critical" = Ok c
    ∧ (10 * w <= tenths v)%Z
    ∧ (Severity a = CRITICAL → (10 * c <= tenths v)%Z).

(** A log line of the given text. *)
Definition line (msg : string) : LogRow :=
  {| message_of := text msg; timestamp := 0; host := "unknown" |}.

(** The rows of a sensor in a frame. *)
Definition of_sensor (sensor : string) (rows : list (gmap string cell))
  : list (gmap string cell) :=
  List.filter (fun r => eq_str sensor (value_at r "sensor_type")) rows.

(** The lines a pattern matches. *)
Definition matched (re : list Re.item) (logs : list LogRow) : list LogRow :=
  List.filter (fun row => match Re.search re (message_of row) with
                          | Some _ => true
                          | None => false
                          end) logs.

(** What one log line adds to the table. *)
Definition line_alerts (row : LogRow) (l : list AlertRecord) : Prop :=
  ∃ temperature humidity,
    log_match temperature_re "Temperature" "temperature" row = Ok temperature
    ∧ log_match humidity_re "Humidity" "humidity" row = Ok humidity
    ∧ l = (temperature ++ humidity)%list.

(** The points of a host after one more reading of that host. *)
Definition push (item : Reading) (o : option (list Z * list pyval))
  : list Z * list pyval :=
  match o with
  | Some (timestamps, values) =>
    (timestamps ++ [reading_timestamp item], values ++ [value item])%list
  | None => ([reading_timestamp item], [value item])
  end.

Definition extend (o : option (list Z * list pyval)) (l : list Reading)
  : list Z * list pyval :=
  match o with
  | Some (timestamps, values) =>
    (timestamps ++ map reading_timestamp l, values ++ map value l)%list
  | None => (map reading_timestamp l, map value l)
  end.

Fixpoint total_points (hosts : Hosts) : nat :=
  match hosts with
  | [] => 0
  | (_, (timestamps, _)) :: hosts' => length timestamps + total_points hosts'
  end.

(** The value of a reading is not negative. *)
Definition nonneg_value (r : Reading) : Prop :=
  match value r with
  | PyFloat q => (0 <= q)%Q
  | PyInt z => (0 <= z)%Z
  end.

(** * Properties of the code around the alerts *)

(** ** The banner *)

Lemma at_most_one_length m l : at_most_one m l → (length l ≤ 1)%nat.
Proof. intros [->|(a & -> & _)]; simpl; lia. Qed.

(** X1. [check_alerts] returns at most five alerts, one per metric, so the
    cut [alerts[:5]] of [generate_alert_banner] never drops an alert: the
    banner shows every alert that was found. *)
Theorem banner_shows_every_alert :
  (∀ now df alerts, check_alerts now df = Ok alerts → (length alerts ≤ 5)%nat)
  ∧ (∀ now search shown,
      alert_banner now search = Alerts shown →
      check_alerts now (query_data search) = Ok shown).
Proof.
  assert (Hlen : ∀ now df alerts,
             check_alerts now df = Ok alerts → (length alerts ≤ 5)%nat).
  { intros now df alerts H.
    apply check_alerts_shape in H
      as (t & h & c & m & d & -> & Ht & Hh & Hc & Hm & Hd).
    apply at_most_one_length in Ht, Hh, Hc, Hm, Hd.
    rewrite !length_app. lia. }
  split; [exact Hlen|].
  intros now search shown. unfold alert_banner.
  destruct (empty (query_data search)); [discriminate|].
  destruct (check_alerts now (query_data search)) as [alerts|e] eqn:H; [|discriminate].
  destruct alerts as [|a alerts]; [discriminate|].
  intros [= <-]. f_equal.
  change (a :: take 4 alerts) with (take 5 (a :: alerts)).
  symmetry. apply take_ge. exact (Hlen _ _ _ H).
Qed.

Lemma banner_shows_every_alert_witness :
  (length [critical_alert Temperature (CNum 50)] ≤ 5)%nat.
Proof.
  apply (proj1 banner_shows_every_alert (seconds 110)
           (DataFrame_of [temperature_record (seconds 100) 50])).
  vm_compute. reflexivity.
Defined.

(** X2. [check_alerts] looks its two columns up without a guard: on a
    frame without ['@timestamp'] it raises [KeyError], and on a frame that
    has recent rows but no ['sensor_type'] column it raises [KeyError] for
    that column, whatever the rows hold. *)
Theorem check_alerts_needs_its_columns now df :
  ("@timestamp" ∉ columns df →
   check_alerts now df = Raise (KeyError "@timestamp"))
  ∧ (∀ recent_df,
      recent now df = Ok recent_df → empty recent_df = false →
      "sensor_type" ∉ columns df →
      check_alerts now df = Raise (KeyError "sensor_type")).
Proof.
  split.
  - intros H. unfold check_alerts, recent, rows_where.
    now rewrite (bool_decide_eq_false_2 _ H).
  - intros recent_df Hrecent Hne Hcol. unfold check_alerts.
    rewrite Hrecent. simpl. rewrite Hne.
    destruct (rows_where_Ok _ _ _ _ Hrecent) as (_ & Hcols & _).
    unfold sensor_alerts, rows_where. rewrite Hcols.
    now rewrite (bool_decide_eq_false_2 _ Hcol).
Qed.

Lemma check_alerts_needs_its_columns_witness :
  check_alerts (seconds 110)
    (DataFrame_of [ list_to_map [ ("@timestamp", CTime (seconds 100));
                                  ("log_type", CStr "security") ] ])
  = Raise (KeyError "sensor_type").
Proof.
  apply (proj2 (check_alerts_needs_its_columns (seconds 110) _)
           (DataFrame_of [ list_to_map [ ("@timestamp", CTime (seconds 100));
                                         ("log_type", CStr "security") ] ])).
  - vm_compute. reflexivity.
  - vm_compute. reflexivity.
  - vm_compute. discriminate.
Defined.

Lemma sensor_alerts_head cols rows sensor m :
  sensor_alerts {| columns := cols; records := rows |} sensor m
  = if bool_decide ("sensor_type" ∈ cols) then
      match head (of_sensor sensor rows) with
      | None => Ok []
      | Some r =>
        if bool_decide (cols = ∅) then Ok []
        else
          latest ← (if bool_decide (sensor ∈ cols) then Ok (value_at r sensor)
                    else if bool_decide ("value" ∈ cols) then Ok (value_at r "value")
                    else Ok CNone);
          match latest with
          | CNone => Ok []
          | _ => threshold_alerts m latest
          end
      end
    else Raise (KeyError "sensor_type").
Proof.
  unfold sensor_alerts, rows_where. simpl.
  destruct (bool_decide ("sensor_type" ∈ cols)); [|reflexivity].
  rewrite (filterM_pure (fun r => eq_str sensor (value_at r "sensor_type"))). simpl.
  fold (of_sensor sensor rows). unfold empty, iloc0, getitem. simpl.
  destruct (of_sensor sensor rows) as [|r rest]; simpl.
  { now rewrite orb_true_r. }
  rewrite orb_false_r.
  destruct (bool_decide (cols = ∅)); [reflexivity|].
  destruct (bool_decide (sensor ∈ cols)) eqn:E1; simpl; [now rewrite ?E1|].
  destruct (bool_decide ("value" ∈ cols)) eqn:E2; simpl; [now rewrite ?E2|].
  reflexivity.
Qed.

Lemma system_alerts_head cols rows :
  system_alerts {| columns := cols; records := rows |}
  = if bool_decide ("sensor_type" ∈ cols) then
      match head (of_sensor "system_health" rows) with
      | None => Ok []
      | Some r =>
        if bool_decide (cols = ∅) then Ok []
        else
          let latest_sys := {| index := cols; data := r |} in
          cpu ← threshold_alerts CPU (get latest_sys "cpu_percent" (CNum 0));
          memory ← threshold_alerts Memory (get latest_sys "memory_percent" (CNum 0));
          disk ← threshold_alerts Disk (get latest_sys "disk_percent" (CNum 0));
          Ok (cpu ++ memory ++ disk)%list
      end
    else Raise (KeyError "sensor_type").
Proof.
  unfold system_alerts, rows_where. simpl.
  destruct (bool_decide ("sensor_type" ∈ cols)); [|reflexivity].
  rewrite (filterM_pure (fun r => eq_str "system_health" (value_at r "sensor_type"))).
  simpl. fold (of_sensor "system_health" rows). unfold empty, iloc0. simpl.
  destruct (of_sensor "system_health" rows) as [|r rest]; simpl.
  { now rewrite orb_true_r. }
  rewrite orb_false_r.
  now destruct (bool_decide (cols = ∅)).
Qed.

(** X3. The banner reads one row per sensor, the first of the sensor's
    rows: two frames with the same columns whose first temperature (or
    humidity, or system health) row is the same get the same alerts for
    that sensor, whatever their other rows of the sensor hold. *)
Theorem banner_reads_first_row_only cols rows1 rows2 :
  (∀ sensor m,
      head (of_sensor sensor rows1) = head (of_sensor sensor rows2) →
      sensor_alerts {| columns := cols; records := rows1 |} sensor m
      = sensor_alerts {| columns := cols; records := rows2 |} sensor m)
  ∧ (head (of_sensor "system_health" rows1) = head (of_sensor "system_health" rows2) →
     system_alerts {| columns := cols; records := rows1 |}
     = system_alerts {| columns := cols; records := rows2 |}).
Proof.
  split.
  - intros sensor m H. rewrite !sensor_alerts_head. now rewrite H.
  - intros H. rewrite !system_alerts_head. now rewrite H.
Qed.

Lemma banner_reads_first_row_only_witness :
  sensor_alerts
    {| columns := {["@timestamp"; "sensor_type"; "value"]};
       records := [temperature_record (seconds 100) 50;
                   temperature_record (seconds 90) 10] |}
    "temperature" Temperature
  = sensor_alerts
      {| columns := {["@timestamp"; "sensor_type"; "value"]};
         records := [temperature_record (seconds 100) 50;
                     temperature_record (seconds 80) 99] |}
      "temperature" Temperature.
Proof.
  apply (proj1 (banner_reads_first_row_only _ _ _)).
  vm_compute. reflexivity.
Defined.

(** X4. When the frame has a column named after the sensor, the banner
    reads that column only: if the first row of the sensor has no such
    field, its reading is the missing value and there is no alert, whatever
    the ['value'] of the row is. *)
Theorem banner_ignores_value_when_column_exists cols rows sensor m r rest :
  "sensor_type" ∈ cols → sensor ∈ cols →
  of_sensor sensor rows = r :: rest →
  r !! sensor = None →
  sensor_alerts {| columns := cols; records := rows |} sensor m = Ok [].
Proof.
  intros Hst Hs Hrows Hr. rewrite sensor_alerts_head.
  rewrite (bool_decide_eq_true_2 _ Hst), Hrows. simpl.
  destruct (bool_decide (cols = ∅)); [reflexivity|].
  rewrite (bool_decide_eq_true_2 _ Hs). simpl.
  unfold value_at. rewrite Hr. simpl.
  now apply threshold_alerts_missing; left.
Qed.

Lemma banner_ignores_value_when_column_exists_witness :
  sensor_alerts
    {| columns := {["@timestamp"; "sensor_type"; "value"; "temperature"]};
       records := [temperature_record (seconds 100) 50] |}
    "temperature" Temperature
  = Ok [].
Proof.
  apply (banner_ignores_value_when_column_exists _ _ _ _
           (temperature_record (seconds 100) 50) []).
  - vm_compute. reflexivity.
  - vm_compute. reflexivity.
  - vm_compute. reflexivity.
  - vm_compute. reflexivity.
Defined.

(** ** The alerts table *)

Lemma table_rule_values T name :
  In (T, name) table_rules →
  ∃ w c, rule name "high" = Ok w ∧ rule name "critical" = Ok c ∧ (w <= c)%Z.
Proof.
  unfold table_rules. intros [E|[E|[]]]; injection E as <- <-.
  - exists 35%Z, 45%Z. repeat split; try (vm_compute; reflexivity). lia.
  - exists 70%Z, 85%Z. repeat split; try (vm_compute; reflexivity). lia.
Qed.

(** X5. In the alerts table a field the document lacks, in a frame where
    another document has it, is the missing value in the row; the missing
    value is truthy, so the row does not fall back on ['value'] and gets no
    alert, whatever its ['value'] is. *)
Theorem table_ignores_value_when_column_exists row T name :
  In (T, name) table_rules →
  name ∈ index row → data row !! name = None →
  field_or_value row name = CNaN ∧ sensor_row_alerts row T name = Ok [].
Proof.
  intros Hin Hidx Hdata.
  assert (Hv : field_or_value row name = CNaN).
  { unfold field_or_value, get, value_at.
    now rewrite (bool_decide_eq_true_2 _ Hidx), Hdata. }
  split; [exact Hv|].
  unfold sensor_row_alerts. destruct (eq_str name _); [|reflexivity].
  rewrite Hv. unfold table_alerts.
  destruct (table_rule_values T name Hin) as (w & c & -> & -> & _).
  reflexivity.
Qed.

Lemma table_ignores_value_when_column_exists_witness :
  field_or_value
    {| index := {["@timestamp"; "sensor_type"; "value"; "temperature"]};
       data := temperature_record (seconds 100) 50 |} "temperature"
  = CNaN
  ∧ sensor_row_alerts
      {| index := {["@timestamp"; "sensor_type"; "value"; "temperature"]};
         data := temperature_record (seconds 100) 50 |}
      "Temperature" "temperature"
    = Ok [].
Proof.
  apply table_ignores_value_when_column_exists.
  - left. reflexivity.
  - vm_compute. reflexivity.
  - vm_compute. reflexivity.
Defined.

Lemma table_alerts_justified time T name v l :
  In (T, name) table_rules →
  table_alerts time T name v = Ok l →
  Forall table_justified l ∧ (length l ≤ 1)%nat.
Proof.
  intros Hin. destruct (table_rule_values T name Hin) as (w & c & Hw & Hc & Hwc).
  unfold table_alerts. rewrite Hw, Hc. unfold mbind, result_bind.
  destruct (ge v c) as [[|]|] eqn:Gc; [| |discriminate].
  - destruct time as [t|]; [|discriminate]. intros [= <-].
    split; [|simpl; lia]. repeat constructor.
    apply ge_true_inv in Gc as (q & -> & Hq).
    exists name, q, w, c. simpl. repeat split; auto.
    eapply Qle_trans; [|exact Hq]. now rewrite <- Zle_Qle.
  - destruct (ge v w) as [[|]|] eqn:Gw; [| |discriminate].
    + destruct time as [t|]; [|discriminate]. intros [= <-].
      split; [|simpl; lia]. repeat constructor.
      apply ge_true_inv in Gw as (q & -> & Hq).
      exists name, q, w, c. simpl. repeat split; auto; try discriminate.
      intros Hcrit. apply ge_false_inv in Gc.
      exfalso. exact (Qlt_not_le _ _ Gc Hcrit).
    + intros [= <-]. split; [constructor|simpl; lia].
Qed.

Lemma sensor_row_alerts_justified row T name l :
  In (T, name) table_rules →
  sensor_row_alerts row T name = Ok l → Forall table_justified l.
Proof.
  intros Hin. unfold sensor_row_alerts. destruct (eq_str name _).
  - intros H. now apply (table_alerts_justified _ _ _ _ _ Hin) in H.
  - intros [= <-]. constructor.
Qed.

Lemma row_alerts_justified row l :
  row_alerts row = Ok l → Forall table_justified l.
Proof.
  unfold row_alerts. intros H.
  apply bind_Ok in H as (t & Ht & H). apply bind_Ok in H as (h & Hh & H).
  injection H as <-. rewrite Forall_app. split.
  - apply (sensor_row_alerts_justified row "Temperature" "temperature"); [|exact Ht].
    left. reflexivity.
  - apply (sensor_row_alerts_justified row "Humidity" "humidity"); [|exact Hh].
    right. left. reflexivity.
Qed.

Lemma mapM_Forall {A B} (P : B → Prop) (f : A → result B) l ls :
  (∀ a b, f a = Ok b → P b) → mapM f l = Ok ls → Forall P ls.
Proof.
  intros Hf. revert ls. induction l as [|a l IH]; simpl; intros ls H.
  - injection H as <-. constructor.
  - apply bind_Ok in H as (b & Hb & H). apply bind_Ok in H as (bs & Hbs & H).
    injection H as <-. constructor; eauto.
Qed.

Lemma frame_alert_records_justified now df l :
  frame_alert_records now df = Ok l → Forall table_justified l.
Proof.
  unfold frame_alert_records. destruct (_ && _).
  - intros H. apply bind_Ok in H as (alerts_df & _ & H).
    apply bind_Ok in H as (per_row & Hrows & H). injection H as <-.
    apply Forall_concat.
    apply (mapM_Forall _ _ _ _ (fun r => row_alerts_justified _) Hrows).
  - intros [= <-]. constructor.
Qed.

Lemma log_match_Ok re T name row :
  (re = temperature_re ∨ re = humidity_re) → In (T, name) table_rules →
  ∃ l, log_match re T name row = Ok l ∧ Forall table_justified l
       ∧ (length l ≤ 1)%nat.
Proof.
  intros Hre Hin. unfold log_match.
  destruct (Re.search re (message_of row)) as [g|] eqn:Hs.
  - assert (Hq : ∃ q, py_float g = Ok q).
    { destruct Hre as [-> | ->]; exact (search_float_ok _ _ _ _ Hs). }
    destruct Hq as [q ->]. simpl.
    destruct (table_rule_values T name Hin) as (w & c & Hw & Hc & _).
    destruct (table_alerts (Ok (timestamp row)) T name (CNum q)) as [l|e] eqn:Ht.
    + exists l. split; [reflexivity|].
      exact (table_alerts_justified _ _ _ _ _ Hin Ht).
    + exfalso. unfold table_alerts in Ht. rewrite Hw, Hc in Ht.
      unfold mbind, result_bind in Ht. simpl in Ht.
      destruct (Qle_bool _ q); [discriminate|].
      destruct (Qle_bool _ q); discriminate.
  - exists []. repeat split; [constructor|simpl; lia].
Qed.

(** X7. The loop over the log lines never ends in its exception handler:
    the conversion of a captured number and the comparisons cannot raise,
    so every line of the query is processed and the records are those of
    all the lines, in the order of the lines, after the ones already
    there. *)
Theorem log_fallback_processes_every_line alert_records logs :
  ∃ per_line,
    Forall2 line_alerts logs per_line
    ∧ log_alert_records alert_records logs
      = (alert_records ++ concat per_line)%list.
Proof.
  revert alert_records. induction logs as [|row logs IH]; intros acc.
  - exists []. split; [constructor|]. simpl. now rewrite app_nil_r.
  - destruct (log_match_Ok temperature_re "Temperature" "temperature" row)
      as (t & Ht & _); [now left|left; reflexivity|].
    destruct (log_match_Ok humidity_re "Humidity" "humidity" row)
      as (h & Hh & _); [now right|right; left; reflexivity|].
    destruct (IH (acc ++ t ++ h)%list) as (per_line & Hall & Heq).
    exists ((t ++ h)%list :: per_line). split.
    + constructor; [|exact Hall]. now exists t, h.
    + simpl. rewrite Ht, Hh, Heq. now rewrite <- !app_assoc.
Qed.

Lemma log_alert_records_justified acc logs :
  Forall table_justified acc → Forall table_justified (log_alert_records acc logs).
Proof.
  revert acc. induction logs as [|row logs IH]; intros acc Hacc; [exact Hacc|].
  destruct (log_match_Ok temperature_re "Temperature" "temperature" row)
    as (t & Ht & Jt & _); [now left|left; reflexivity|].
  destruct (log_match_Ok humidity_re "Humidity" "humidity" row)
    as (h & Hh & Jh & _); [now right|right; left; reflexivity|].
  simpl. rewrite Ht, Hh. apply IH. rewrite !Forall_app. auto.
Qed.

Lemma tenths_ge (w : Z) (v : Q) : (inject_Z w <= v)%Q → (10 * w <= tenths v)%Z.
Proof.
  destruct v as [n d]. unfold Qle, tenths. cbn [Qnum Qden inject_Z]. intros H.
  assert (Hq : (10 * w <= 10 * n / Z.pos d)%Z).
  { apply Z.div_le_lower_bound; lia. }
  destruct (2 * ((10 * n) mod Z.pos d) ?= Z.pos d)%Z; [|lia|lia].
  destruct (Z.even _); lia.
Qed.

Lemma table_justified_shown a : table_justified a → shown_justified a.
Proof.
  intros (name & v & w & c & Hin & Hm & Hw & Hc & Hge & Hsev).
  exists name, v, w, c. repeat split; auto using tenths_ge.
  intros Hcrit. apply tenths_ge, Hsev, Hcrit.
Qed.

(** X6. Whatever the frame and the log lines are, the alerts table has
    at most ten entries, and every entry, be it from a row of the frame or
    from a log line, is about temperature or humidity, was raised for a
    number at or above the high threshold of its rule and is CRITICAL
    exactly when that number is at or above the critical threshold.  The
    text of the entry rounds the number to one decimal: it never shows
    less than the high threshold nor, in a CRITICAL entry, less than the
    critical one, but a WARNING entry can show the critical value itself,
    as the line "Temperature: 44.96" does with 45.0.  The number of a log
    line is the float nearest to its digits: 44.99999999999999999999 is
    45, and CRITICAL. *)
Theorem alerts_table_entries_justified :
  (∀ now df loki l,
      generate_alerts_table now df loki = Ok l →
      (length l ≤ 10)%nat ∧ Forall table_justified l ∧ Forall shown_justified l)
  ∧ (∃ v,
      generate_alerts_table 0 (DataFrame_of []) (Some [line "Temperature: 44.96"])
      = Ok [ {| Time := 0; Type_ := "Temperature"; Severity := WARNING;
                Message := CNum v |} ]
      ∧ (v < 45)%Q ∧ tenths v = 450%Z)
  ∧ generate_alerts_table 0 (DataFrame_of [])
      (Some [line "Temperature: 44.99999999999999999999"])
    = Ok [ {| Time := 0; Type_ := "Temperature"; Severity := CRITICAL;
              Message := CNum 45 |} ].
Proof.
  split; [|split].
  - intros now df loki l. unfold generate_alerts_table. intros H.
    apply bind_Ok in H as (recs & Hrecs & H). injection H as <-.
    split; [rewrite length_take; lia|].
    assert (Hj : Forall table_justified
                   (take 10 match recs, loki with
                            | [], Some logs => log_alert_records [] logs
                            | _, _ => recs
                            end)).
    { apply Forall_take.
      apply frame_alert_records_justified in Hrecs.
      destruct recs as [|a recs]; [|exact Hrecs].
      destruct loki as [logs|]; [|constructor].
      apply log_alert_records_justified. constructor. }
    split; [exact Hj|].
    eapply Forall_impl; [exact Hj|]. apply table_justified_shown.
  - eexists. split; [vm_compute; reflexivity|].
    split; vm_compute; reflexivity.
  - vm_compute. reflexivity.
Qed.

Lemma alerts_table_entries_justified_witness :
  (length [ {| Time := seconds 100; Type_ := "Temperature";
               Severity := CRITICAL; Message := CNum 50 |} ] ≤ 10)%nat
  ∧ Forall table_justified
      [ {| Time := seconds 100; Type_ := "Temperature";
           Severity := CRITICAL; Message := CNum 50 |} ]
  ∧ Forall shown_justified
      [ {| Time := seconds 100; Type_ := "Temperature";
           Severity := CRITICAL; Message := CNum 50 |} ].
Proof.
  apply (proj1 alerts_table_entries_justified (seconds 110)
           (DataFrame_of [temperature_record (seconds 100) 50]) None).
  vm_compute. reflexivity.
Defined.

(** ** Log levels *)

Lemma upper_app a b : upper (a ++ b)%list = (upper a ++ upper b)%list.
Proof. unfold upper. apply flat_map_app. Qed.

Lemma contains_here needle s : starts_with needle s = true → contains needle s = true.
Proof. intros H. destruct s; simpl; now rewrite H. Qed.

Lemma contains_later needle pre s :
  contains needle s = true → contains needle (pre ++ s)%list = true.
Proof.
  intros H. induction pre as [|c pre IH]; simpl; [exact H|].
  rewrite IH. apply orb_true_r.
Qed.

Lemma contains_word needle pre post :
  contains needle (pre ++ needle ++ post)%list = true.
Proof. apply contains_later, contains_here, starts_with_app. Qed.

Lemma contains_upper_word word w pre post :
  upper w = word → contains word (upper (pre ++ w ++ post)%list) = true.
Proof. intros <-. rewrite !upper_app. apply contains_word. Qed.

(** X8. The level of a message is found without regard to letter case
    and in a fixed order of precedence: a message that contains "error" in
    any mix of cases is ERROR, whatever else it contains; one that contains
    "warn" is ERROR or WARN; one that contains "debug" is never INFO. *)
Theorem level_by_precedence pre w post :
  (upper w = text "ERROR" → _extract_level (pre ++ w ++ post)%list = "ERROR")
  ∧ (upper w = text "WARN" →
     _extract_level (pre ++ w ++ post)%list = "ERROR"
     ∨ _extract_level (pre ++ w ++ post)%list = "WARN")
  ∧ (upper w = text "DEBUG" → _extract_level (pre ++ w ++ post)%list ≠ "INFO").
Proof.
  unfold _extract_level. split; [|split]; intros Hw.
  - now rewrite (contains_upper_word _ w pre post Hw).
  - destruct (contains (text "ERROR") _); [now left|].
    rewrite (contains_upper_word _ w pre post Hw). now right.
  - destruct (contains (text "ERROR") _); [discriminate|].
    destruct (contains (text "WARN") _); [discriminate|].
    rewrite (contains_upper_word _ w pre post Hw). discriminate.
Qed.

Lemma level_by_precedence_witness :
  _extract_level (text "disk Error after warning, debug on") = "ERROR".
Proof.
  apply (proj1 (level_by_precedence (text "disk ") (text "Error")
                  (text " after warning, debug on"))).
  vm_compute. reflexivity.
Defined.

Lemma level_cases row :
  level row = "ERROR" ∨ level row = "WARN" ∨ level row = "DEBUG" ∨ level row = "INFO".
Proof.
  unfold level, _extract_level.
  destruct (contains (text "ERROR") _); [tauto|].
  destruct (contains (text "WARN") _); [tauto|].
  destruct (contains (text "DEBUG") _); tauto.
Qed.

Lemma count_level_cons lvl row df :
  count_level lvl (row :: df)
  = ((if String.eqb (level row) lvl then 1 else 0) + count_level lvl df)%nat.
Proof. unfold count_level. simpl. now destruct (String.eqb (level row) lvl). Qed.

Lemma levels_partition df :
  length df
  = (count_level "ERROR" df + count_level "WARN" df + count_level "INFO" df
     + count_level "DEBUG" df)%nat.
Proof.
  induction df as [|row df IH]; [reflexivity|].
  rewrite !count_level_cons. simpl length. rewrite IH.
  destruct (level_cases row) as [E|[E|[E|E]]]; rewrite E; simpl; lia.
Qed.

(** ** Statistics *)

(** X9. The counters of the logs add up: in the card of
    [create_loki_stats_card] and in the counters of the Loki section, the
    total is the number of errors, warnings and info lines plus the number
    of DEBUG lines, which neither shows; the dict of [get_log_stats] for a
    frame with lines has the DEBUG count and its total is the sum of its
    four counts. *)
Theorem log_counters_add_up df :
  stats_get (create_loki_stats_card df) "total_logs"
  = (stats_get (create_loki_stats_card df) "errors"
     + stats_get (create_loki_stats_card df) "warnings"
     + stats_get (create_loki_stats_card df) "info"
     + count_level "DEBUG" df)%nat
  ∧ stats_get (section_stats df) "total"
    = (stats_get (section_stats df) "errors"
       + stats_get (section_stats df) "warnings"
       + stats_get (section_stats df) "info"
       + count_level "DEBUG" df)%nat
  ∧ (df ≠ [] →
     get_log_stats df !! "debug" = Some (count_level "DEBUG" df)
     ∧ stats_get (get_log_stats df) "total"
       = (stats_get (get_log_stats df) "errors"
          + stats_get (get_log_stats df) "warnings"
          + stats_get (get_log_stats df) "info"
          + stats_get (get_log_stats df) "debug")%nat).
Proof.
  assert (Hsec : ∀ t e w i : nat,
            let s := list_to_map [("total", t); ("errors", e); ("warnings", w);
                                  ("info", i)] : gmap string nat in
            stats_get s "total" = t ∧ stats_get s "errors" = e
            ∧ stats_get s "warnings" = w ∧ stats_get s "info" = i).
  { intros. repeat split. }
  assert (Hfull : ∀ t e w i d : nat,
            let s := list_to_map [("total", t); ("errors", e); ("warnings", w);
                                  ("info", i); ("debug", d)] : gmap string nat in
            stats_get s "total" = t ∧ stats_get s "errors" = e
            ∧ stats_get s "warnings" = w ∧ stats_get s "info" = i
            ∧ stats_get s "debug" = d ∧ s !! "debug" = Some d).
  { intros. repeat split. }
  assert (Hcard : ∀ t e w i : nat,
            let s := list_to_map [("total_logs", t); ("errors", e); ("warnings", w);
                                  ("info", i)] : gmap string nat in
            stats_get s "total_logs" = t ∧ stats_get s "errors" = e
            ∧ stats_get s "warnings" = w ∧ stats_get s "info" = i).
  { intros. repeat split. }
  split; [|split].
  - unfold create_loki_stats_card.
    destruct (Hcard (stats_get (get_log_stats df) "total")
                    (stats_get (get_log_stats df) "errors")
                    (stats_get (get_log_stats df) "warnings")
                    (stats_get (get_log_stats df) "info")) as (-> & -> & -> & ->).
    destruct df as [|row df]; [reflexivity|].
    unfold get_log_stats.
    destruct (Hfull (length (row :: df)) (count_level "ERROR" (row :: df))
                    (count_level "WARN" (row :: df)) (count_level "INFO" (row :: df))
                    (count_level "DEBUG" (row :: df))) as (-> & -> & -> & -> & _).
    apply levels_partition.
  - unfold section_stats.
    destruct (Hsec (length df) (count_level "ERROR" df) (count_level "WARN" df)
                   (count_level "INFO" df)) as (-> & -> & -> & ->).
    apply levels_partition.
  - intros Hne. destruct df as [|row df]; [congruence|].
    unfold get_log_stats.
    destruct (Hfull (length (row :: df)) (count_level "ERROR" (row :: df))
                    (count_level "WARN" (row :: df)) (count_level "INFO" (row :: df))
                    (count_level "DEBUG" (row :: df)))
      as (-> & -> & -> & -> & -> & ->).
    split; [reflexivity|]. apply levels_partition.
Qed.

Lemma log_counters_add_up_witness :
  get_log_stats [ {| message_of := text "debug: tick"; timestamp := 0;
                     host := "client-vm-1" |} ] !! "debug" = Some 1%nat.
Proof.
  refine (eq_trans (proj1 (proj2 (proj2 (log_counters_add_up _)) _)) _).
  - discriminate.
  - vm_compute. reflexivity.
Defined.

(** ** The panels fed from Loki *)

Lemma filter_holds {A} (f : A → bool) (l : list A) :
  Forall (fun a => f a = true) (List.filter f l).
Proof.
  induction l as [|a l IH]; simpl; [constructor|].
  destruct (f a) eqn:E; [constructor|]; auto.
Qed.

Lemma filter_none {A} (f : A → bool) (l : list A) :
  Forall (fun a => f a = false) l → List.filter f l = [].
Proof. induction 1 as [|a l Ha _ IH]; simpl; [reflexivity|]. now rewrite Ha. Qed.

Lemma Forall_map_of {A B} (P : B → Prop) (f : A → B) (l : list A) :
  Forall (fun a => P (f a)) l → Forall P (map f l).
Proof. induction 1; simpl; constructor; auto. Qed.

(** X10. The two panels split the Loki lines by level.  The security
    panel shows ERROR lines only, always in the danger colour (no line has
    the level CRITICAL it also asks for); the application panel shows INFO
    and DEBUG lines; each shows at most five; and when every line is WARN
    both panels are empty: a WARN line is shown in neither. *)
Theorem loki_panels_split_by_level logs :
  Forall (fun e => entry_level e = "ERROR" ∧ entry_color e = danger)
         (security_logs_from_loki logs)
  ∧ Forall (fun e => (entry_level e = "INFO" ∧ entry_color e = info)
                     ∨ (entry_level e = "DEBUG" ∧ entry_color e = text_color))
           (app_logs_from_loki logs)
  ∧ (length (security_logs_from_loki logs) ≤ 5)%nat
  ∧ (length (app_logs_from_loki logs) ≤ 5)%nat
  ∧ (Forall (fun row => level row = "WARN") logs →
     security_logs_from_loki logs = [] ∧ app_logs_from_loki logs = []).
Proof.
  split; [|split; [|split; [|split]]].
  - unfold security_logs_from_loki. apply Forall_map_of, Forall_take.
    eapply Forall_impl; [apply filter_holds|].
    intros row Hrow. cbv beta in Hrow.
    unfold security_entry. cbn [entry_level entry_color].
    rewrite Hrow. split; [|reflexivity].
    destruct (level_cases row) as [E|[E|[E|E]]]; rewrite E in Hrow |- *;
      try reflexivity; discriminate.
  - unfold app_logs_from_loki. apply Forall_map_of, Forall_take.
    eapply Forall_impl; [apply filter_holds|].
    intros row Hrow. cbv beta in Hrow.
    unfold app_entry. cbn [entry_level entry_color].
    destruct (level_cases row) as [E|[E|[E|E]]]; rewrite E in Hrow |- *;
      try discriminate; simpl; tauto.
  - unfold security_logs_from_loki. rewrite length_map, length_take. lia.
  - unfold app_logs_from_loki. rewrite length_map, length_take. lia.
  - intros Hwarn. unfold security_logs_from_loki, app_logs_from_loki.
    rewrite !filter_none; [split; reflexivity| |].
    + eapply Forall_impl; [exact Hwarn|]. intros row E. simpl. now rewrite E.
    + eapply Forall_impl; [exact Hwarn|]. intros row E. simpl. now rewrite E.
Qed.

Lemma loki_panels_split_by_level_witness :
  security_logs_from_loki
    [ {| message_of := text "Warning: disk almost full"; timestamp := 0;
         host := "client-vm-1" |} ] = []
  ∧ app_logs_from_loki
      [ {| message_of := text "Warning: disk almost full"; timestamp := 0;
           host := "client-vm-1" |} ] = [].
Proof.
  apply (proj2 (proj2 (proj2 (proj2 (loki_panels_split_by_level _))))).
  constructor; [vm_compute; reflexivity|constructor].
Defined.

(** ** Grouping by host *)

Lemma hosts_get_add_item h hosts item :
  hosts_get h (add_item hosts item)
  = if String.eqb (reading_host item) h
    then Some (push item (hosts_get h hosts))
    else hosts_get h hosts.
Proof.
  induction hosts as [|[h' [ts vs]] hosts IH]; simpl.
  - now destruct (String.eqb (reading_host item) h).
  - destruct (String.eqb h' (reading_host item)) eqn:E1; simpl.
    + apply String.eqb_eq in E1. subst h'.
      destruct (String.eqb (reading_host item) h); reflexivity.
    + destruct (String.eqb h' h) eqn:E2.
      * apply String.eqb_eq in E2. subst h'.
        rewrite String.eqb_sym, E1. reflexivity.
      * exact IH.
Qed.

Lemma hosts_get_fold h data acc :
  hosts_get h (fold_left add_item data acc)
  = match of_host h data with
    | [] => hosts_get h acc
    | l => Some (extend (hosts_get h acc) l)
    end.
Proof.
  revert acc. induction data as [|item data IH]; intros acc; [reflexivity|].
  simpl fold_left. rewrite IH, hosts_get_add_item. unfold of_host. simpl.
  destruct (String.eqb (reading_host item) h); [|reflexivity].
  fold (of_host h data).
  destruct (hosts_get h acc) as [[ts vs]|]; destruct (of_host h data);
    simpl; rewrite <- ?app_assoc; reflexivity.
Qed.

Lemma chart_is_grouping data : generate_motion_chart_from_logs data = group_by_host data.
Proof. now destruct data. Qed.

(** X12. In the charts drawn from log lines each host has one trace, and
    the trace of a host holds the timestamps and the values of exactly the
    readings of that host, in the order in which the lines were read; a
    host without reading has no trace. *)
Theorem chart_trace_of_host h :
  (∀ motion_data,
      hosts_get h (generate_motion_chart_from_logs motion_data)
      = match of_host h motion_data with
        | [] => None
        | l => Some (map reading_timestamp l, map value l)
        end)
  ∧ (∀ temp_data humidity_data,
      hosts_get h (generate_temp_humidity_chart_from_logs temp_data humidity_data
                     "temperature")
      = match of_host h temp_data with
        | [] => None
        | l => Some (map reading_timestamp l, map value l)
        end
      ∧ hosts_get h (generate_temp_humidity_chart_from_logs temp_data humidity_data
                       "humidity")
        = match of_host h humidity_data with
          | [] => None
          | l => Some (map reading_timestamp l, map value l)
          end).
Proof.
  assert (Hg : ∀ data, hosts_get h (group_by_host data)
                       = match of_host h data with
                         | [] => None
                         | l => Some (map reading_timestamp l, map value l)
                         end).
  { intros data. unfold group_by_host. rewrite hosts_get_fold. reflexivity. }
  split.
  - intros data. rewrite chart_is_grouping. apply Hg.
  - intros t u. unfold generate_temp_humidity_chart_from_logs. split.
    + destruct t; [reflexivity|apply Hg].
    + destruct u; [reflexivity|apply Hg].
Qed.

Lemma add_item_keys hosts item :
  map fst (add_item hosts item) = map fst hosts
  ∨ (map fst (add_item hosts item) = (map fst hosts ++ [reading_host item])%list
     ∧ reading_host item ∉ map fst hosts).
Proof.
  induction hosts as [|[h' [ts vs]] hosts IH]; simpl.
  - right. split; [reflexivity|]. apply not_elem_of_nil.
  - destruct (String.eqb h' (reading_host item)) eqn:E; simpl; [now left|].
    apply String.eqb_neq in E.
    destruct IH as [-> | [-> Hn]]; [now left|].
    right. split; [reflexivity|].
    rewrite not_elem_of_cons. auto.
Qed.

Lemma add_item_invariants hosts item :
  NoDup (map fst hosts) →
  Forall (fun e => length (fst (snd e)) = length (snd (snd e))) hosts →
  NoDup (map fst (add_item hosts item))
  ∧ Forall (fun e => length (fst (snd e)) = length (snd (snd e))) (add_item hosts item)
  ∧ total_points (add_item hosts item) = S (total_points hosts).
Proof.
  intros Hnd Hlen. split; [|split].
  - destruct (add_item_keys hosts item) as [-> | [-> Hn]]; [exact Hnd|].
    apply NoDup_app. split; [exact Hnd|]. split; [|apply NoDup_singleton].
    intros x Hx Hx'. apply list_elem_of_singleton in Hx'. now subst.
  - clear Hnd. induction Hlen as [|[h' [ts vs]] hosts He Hrest IH]; simpl.
    + repeat constructor.
    + destruct (String.eqb h' (reading_host item)).
      * constructor; [|exact Hrest]. simpl in *. rewrite !length_app. simpl. lia.
      * constructor; [exact He|exact IH].
  - clear. induction hosts as [|[h' [ts vs]] hosts IH]; simpl; [reflexivity|].
    destruct (String.eqb h' (reading_host item)); simpl.
    + rewrite length_app. simpl. lia.
    + rewrite IH. lia.
Qed.

(** X13. The grouping loses and repeats nothing: the traces of a chart
    have distinct hosts, each trace has as many timestamps as values, and
    the traces together have exactly as many points as there are
    readings. *)
Theorem chart_points_are_the_readings data :
  NoDup (map fst (generate_motion_chart_from_logs data))
  ∧ Forall (fun e => length (fst (snd e)) = length (snd (snd e)))
           (generate_motion_chart_from_logs data)
  ∧ total_points (generate_motion_chart_from_logs data) = length data.
Proof.
  rewrite chart_is_grouping. unfold group_by_host.
  assert (H : ∀ acc,
             NoDup (map fst acc) →
             Forall (fun e => length (fst (snd e)) = length (snd (snd e))) acc →
             NoDup (map fst (fold_left add_item data acc))
             ∧ Forall (fun e => length (fst (snd e)) = length (snd (snd e)))
                      (fold_left add_item data acc)
             ∧ total_points (fold_left add_item data acc)
               = (total_points acc + length data)%nat).
  { induction data as [|item data IH]; intros acc Hnd Hlen; simpl.
    - repeat split; auto.
    - destruct (add_item_invariants acc item Hnd Hlen) as (Hnd' & Hlen' & Hp).
      destruct (IH _ Hnd' Hlen') as (? & ? & ->). repeat split; auto.
      rewrite Hp. lia. }
  destruct (H []) as (? & ? & ->); [constructor|constructor|].
  repeat split; auto.
Qed.

(** ** The readings the loop collects *)

Lemma float_readings_of re row rs :
  float_readings re row = Ok rs →
  map reading_timestamp rs = map timestamp (matched re [row])
  ∧ map reading_host rs = map host (matched re [row]).
Proof.
  unfold float_readings, matched. simpl.
  destruct (Re.search re (message_of row)).
  - destruct (py_float l); simpl; [|discriminate]. now intros [= <-].
  - now intros [= <-].
Qed.

Lemma matched_cons re row logs :
  matched re (row :: logs) = (matched re [row] ++ matched re logs)%list.
Proof. unfold matched. simpl. now destruct (Re.search re (message_of row)). Qed.

(** X14. The loop over the log lines keeps the order of the lines: when it
    returns, the temperature readings are those of exactly the lines the
    temperature pattern matches, one for each and in the same order, with
    the timestamp and the host of their line; the same holds for humidity;
    and there are at most as many motion readings as lines. *)
Theorem readings_follow_the_lines logs parsed :
  parse_logs logs = Ok parsed →
  map reading_timestamp (temp_data parsed) = map timestamp (matched temperature_re logs)
  ∧ map reading_host (temp_data parsed) = map host (matched temperature_re logs)
  ∧ map reading_timestamp (humidity_data parsed) = map timestamp (matched humidity_re logs)
  ∧ map reading_host (humidity_data parsed) = map host (matched humidity_re logs)
  ∧ (length (motion_data parsed) ≤ length logs)%nat.
Proof.
  unfold parse_logs.
  assert (H : ∀ st,
    foldM parse_row st logs = Ok parsed →
    map reading_timestamp (temp_data parsed)
    = (map reading_timestamp (temp_data st) ++ map timestamp (matched temperature_re logs))%list
    ∧ map reading_host (temp_data parsed)
      = (map reading_host (temp_data st) ++ map host (matched temperature_re logs))%list
    ∧ map reading_timestamp (humidity_data parsed)
      = (map reading_timestamp (humidity_data st) ++ map timestamp (matched humidity_re logs))%list
    ∧ map reading_host (humidity_data parsed)
      = (map reading_host (humidity_data st) ++ map host (matched humidity_re logs))%list
    ∧ (length (motion_data parsed) ≤ length (motion_data st) + length logs)%nat).
  { induction logs as [|row logs IH]; intros st.
    - simpl. intros [= <-]. rewrite !app_nil_r. repeat split; auto. lia.
    - simpl foldM. intros H. apply bind_Ok in H as (st' & Hrow & H).
      apply parse_row_inv in Hrow as (t & h & m & -> & Ht & Hh & Hm).
      pose proof (motion_readings_length _ _ Hm) as Hlen.
      assert (Hle : (length m ≤ 1)%nat).
      { rewrite Hlen. destruct (Re.search motion_re (message_of row)); [lia|].
        destruct (contains _ _); lia. }
      destruct (float_readings_of _ _ _ Ht) as [Ht1 Ht2].
      destruct (float_readings_of _ _ _ Hh) as [Hh1 Hh2].
      destruct (IH _ H) as (E1 & E2 & E3 & E4 & E5).
      cbn [temp_data humidity_data motion_data] in E1, E2, E3, E4, E5.
      rewrite (matched_cons temperature_re), (matched_cons humidity_re).
      rewrite E1, E2, E3, E4, !map_app, Ht1, Ht2, Hh1, Hh2, <- !app_assoc.
      repeat split; auto. rewrite length_app in E5. simpl length. lia. }
  intros Hf.
  destruct (H {| temp_data := []; humidity_data := []; motion_data := [] |} Hf)
    as (E1 & E2 & E3 & E4 & E5).
  simpl in *. auto 10.
Qed.

Lemma readings_follow_the_lines_witness :
  let logs := [ {| message_of := text "System nominal"; timestamp := 1; host := "a" |};
                {| message_of := text "Temperature: 21.5"; timestamp := 2; host := "b" |};
                {| message_of := text "humidity=40 temperature=22"; timestamp := 3;
                   host := "c" |} ] in
  ∃ parsed,
    parse_logs logs = Ok parsed
    ∧ map reading_timestamp (temp_data parsed) = [2; 3]%Z
    ∧ map reading_host (humidity_data parsed) = ["c"].
Proof.
  intros logs.
  destruct (parse_logs logs) as [parsed|e] eqn:E; [|vm_compute in E; discriminate].
  exists parsed. split; [reflexivity|].
  destruct (readings_follow_the_lines logs parsed E) as (E1 & _ & _ & E4 & _).
  rewrite E1, E4. split; vm_compute; reflexivity.
Defined.

(** ** No sign is read *)

Lemma to_double_nonneg n d : (0 <= to_double n d)%Q.
Proof.
  unfold to_double, inf.
  repeat match goal with
         | |- context [if ?b then _ else _] => destruct b
         end;
    unfold Qle; cbn [Qnum Qden]; lia.
Qed.

Lemma py_float_nonneg s q : py_float s = Ok q → (0 <= q)%Q.
Proof.
  unfold py_float.
  destruct (take_while is_digit s) as [|d ip]; [discriminate|].
  destruct (drop_while is_digit s) as [|c fp].
  - intros [= <-]. rewrite Qred_correct. apply to_double_nonneg.
  - destruct (Re.is_dot c && forallb is_digit fp); [|discriminate].
    intros [= <-]. rewrite Qred_correct. apply to_double_nonneg.
Qed.

Lemma py_int_nonneg s z : py_int s = Ok z → (0 <= z)%Z.
Proof.
  unfold py_int. destruct s; [discriminate|].
  destruct (forallb is_digit _); [|discriminate].
  destruct (N.ltb _ _); [discriminate|]. intros [= <-]. lia.
Qed.

Lemma float_readings_nonneg re row rs :
  float_readings re row = Ok rs → Forall nonneg_value rs.
Proof.
  unfold float_readings. destruct (Re.search re (message_of row)).
  - destruct (py_float l) eqn:E; simpl; [|discriminate]. intros [= <-].
    repeat constructor. exact (py_float_nonneg _ _ E).
  - intros [= <-]. constructor.
Qed.

Lemma motion_readings_nonneg row rs :
  motion_readings row = Ok rs → Forall nonneg_value rs.
Proof.
  unfold motion_readings. destruct (Re.search motion_re (message_of row)).
  - destruct (py_int l) eqn:E; simpl; [|discriminate]. intros [= <-].
    repeat constructor. exact (py_int_nonneg _ _ E).
  - destruct (contains _ _); intros [= <-]; repeat constructor.
    unfold nonneg_value. simpl. lia.
Qed.

Lemma rematch_signed first name grp number c0 seps x rest :
  (∀ t, Re.rematch grp t = number t) →
  (∀ c t, Re.is_sep c = true → number (c :: t) = None) →
  (∀ t, number (x :: t) = None) →
  forallb Re.is_sep seps = true → Re.is_sep x = false →
  Re.rematch (Re.one_of first :: Re.lit name ++ Re.Item Re.is_sep Re.Plus false :: grp)
             (c0 :: name ++ seps ++ x :: rest)%list
  = None.
Proof.
  intros Hgrp Hnum Hx Hsep Hxs.
  rewrite rematch_name, starts_with_app, drop_app_length.
  destruct (existsb (N.eqb c0) first); [|reflexivity]. cbn [andb].
  rewrite (rematch_seps grp number) by assumption.
  unfold after_seps.
  destruct (take_while_stop Re.is_sep seps (x :: rest) Hsep Hxs) as [-> ->].
  destruct seps; [reflexivity|apply Hx].
Qed.

(** X15. No reading is negative: the patterns have no place for a sign,
    so every temperature, humidity and motion reading the loop returns is
    zero or more; where a metric name, in either spelling, and its
    separators are followed by a minus sign, the pattern of that metric
    does not match at that place. *)
Theorem readings_never_negative :
  (∀ logs parsed,
      parse_logs logs = Ok parsed →
      Forall nonneg_value (temp_data parsed)
      ∧ Forall nonneg_value (humidity_data parsed)
      ∧ Forall nonneg_value (motion_data parsed))
  ∧ (∀ re name seps rest,
      In (re, name) spellings →
      forallb Re.is_sep seps = true →
      Re.rematch re (name ++ seps ++ text "-" ++ rest)%list = None).
Proof.
  split.
  - intros logs parsed. unfold parse_logs.
    assert (H : ∀ st,
      Forall nonneg_value (temp_data st) → Forall nonneg_value (humidity_data st) →
      Forall nonneg_value (motion_data st) →
      foldM parse_row st logs = Ok parsed →
      Forall nonneg_value (temp_data parsed)
      ∧ Forall nonneg_value (humidity_data parsed)
      ∧ Forall nonneg_value (motion_data parsed)).
    { induction logs as [|row logs IH]; intros st Ht Hh Hm; simpl.
      - intros [= <-]. auto.
      - intros H. apply bind_Ok in H as (st' & Hrow & H).
        apply parse_row_inv in Hrow as (t & h & m & -> & Et & Eh & Em).
        apply (IH _) in H; [exact H|..]; cbn [temp_data humidity_data motion_data];
          rewrite Forall_app; split;
          eauto using float_readings_nonneg, motion_readings_nonneg. }
    apply H; constructor.
  - intros re name seps rest Hin Hsep.
    assert (Hminus : ∀ t, number_text (45%N :: t) = None) by reflexivity.
    assert (Hminus' : ∀ t, integer_text (45%N :: t) = None) by reflexivity.
    change (text "-") with [45%N].
    split_spellings Hin.
    + change (text "Temperature") with (84 :: text "emperature")%N.
      unfold temperature_re, Re.sep_number. rewrite <- app_comm_cons.
      apply (rematch_signed _ _ _ number_text);
        auto using rematch_number, number_text_sep.
    + change (text "temperature") with (116 :: text "emperature")%N.
      unfold temperature_re, Re.sep_number. rewrite <- app_comm_cons.
      apply (rematch_signed _ _ _ number_text);
        auto using rematch_number, number_text_sep.
    + change (text "Humidity") with (72 :: text "umidity")%N.
      unfold humidity_re, Re.sep_number. rewrite <- app_comm_cons.
      apply (rematch_signed _ _ _ number_text);
        auto using rematch_number, number_text_sep.
    + change (text "humidity") with (104 :: text "umidity")%N.
      unfold humidity_re, Re.sep_number. rewrite <- app_comm_cons.
      apply (rematch_signed _ _ _ number_text);
        auto using rematch_number, number_text_sep.
    + change (text "Motion") with (77 :: text "otion")%N.
      unfold motion_re, Re.sep_integer. rewrite <- app_comm_cons.
      apply (rematch_signed _ _ _ integer_text);
        auto using rematch_integer, integer_text_sep.
    + change (text "motion") with (109 :: text "otion")%N.
      unfold motion_re, Re.sep_integer. rewrite <- app_comm_cons.
      apply (rematch_signed _ _ _ integer_text);
        auto using rematch_integer, integer_text_sep.
Qed.

Lemma readings_never_negative_witness :
  Re.rematch humidity_re (text "humidity = -5") = None.
Proof.
  apply (proj2 readings_never_negative humidity_re (text "humidity") (text " = ")
           (text "5")).
  - unfold spellings. simpl. tauto.
  - vm_compute. reflexivity.
Defined.
